(** * movie-rag-mini: the retrieval and backfill pipeline

    A shallow embedding of [app/database.py], [app/embeddings.py],
    [app/models.py] and [app/routes/movies.py].

    - Python values and BSON values share one type, [value]; a document (a
      Python [dict], a BSON document) is a [gmap string value].
    - The handlers run in a small state-and-exception monad [M] over a
      [World]: the contents of the remote collection, the two process-wide
      singletons ([mongodb.collection], [embedding_model.model]) and a
      history of the calls made to the model and to the store client.
    - What lives outside the repository (the MongoDB server's connection and
      vector index, the sentence-transformers model, pydantic's coercions,
      Python's float formatting) is gathered in one record, [Env], and every
      theorem holds for every such environment. *)

From Stdlib Require Import ZArith String Ascii List Bool Lia Floats.
From stdpp Require Import base option list gmap strings fin_maps pretty.

#[local] Open Scope string_scope.
#[local] Open Scope list_scope.
#[local] Open Scope Z_scope.

(** ** Values *)

(** [bson.ObjectId]: twelve bytes, kept in their canonical form, the 24
    lower-case hexadecimal digits that [str(oid)] prints. *)
Record ObjectId := mkObjectId { oid_hex : string }.

Inductive value :=
  | VNull                       (* None / BSON null *)
  | VBool (b : bool)
  | VInt (n : Z)
  | VFloat (f : float)
  | VStr (s : string)
  | VObjectId (o : ObjectId)
  | VStrs (l : list string)     (* an array of strings: genres, cast *)
  | VVector (v : list float).   (* an array of doubles: an embedding *)

#[global] Instance float_eq_dec : EqDecision float.
Proof.
  intros x y. destruct (Leibniz.eqb x y) eqn:E.
  - left. by apply Leibniz.eqb_spec.
  - right. intros H. apply Leibniz.eqb_spec in H. congruence.
Defined.

#[global] Instance ObjectId_eq_dec : EqDecision ObjectId.
Proof. solve_decision. Defined.

#[global] Instance value_eq_dec : EqDecision value.
Proof. solve_decision. Defined.

(** A document: field name to value. *)
Abbreviation Document := (gmap string value).

(** ** Exceptions and results *)

Inductive exn :=
  | InvalidId (s : string)            (* bson.errors.InvalidId *)
  | KeyError (k : string)
  | TypeError (msg : string)
  | ValueError (msg : string)
  | AttributeError (attr : string)    (* 'NoneType' object has no attribute .. *)
  | ZeroDivisionError
  | ValidationError (field : string)  (* pydantic *)
  | PyMongoError (msg : string)       (* a store-side failure *)
  | ModelError (msg : string)         (* raised inside sentence-transformers *)
  | HTTPException (status_code : Z) (detail : message)
with message :=
  | Text (s : string)                 (* a literal *)
  | TextStr (s : string) (e : exn).   (* the f-string [s{str(e)}] *)

Inductive result (A : Type) : Type :=
  | Ok (a : A)
  | Raise (e : exn).
Arguments Ok {A} a.
Arguments Raise {A} e.

(** ** [bson.ObjectId(str)] and [str(ObjectId)] *)

Definition is_hex_digit (c : ascii) : bool :=
  let n := N_of_ascii c in
  ((48 <=? n) && (n <=? 57) || (97 <=? n) && (n <=? 102) || (65 <=? n) && (n <=? 70))%N.

Definition hex_lower (c : ascii) : ascii :=
  let n := N_of_ascii c in
  if ((65 <=? n) && (n <=? 70))%N then ascii_of_N (n + 32) else c.

(** [ObjectId(s)] for a [str] argument: exactly 24 hexadecimal digits, and
    [InvalidId] otherwise. *)
Definition ObjectId_of_str (s : string) : result ObjectId :=
  let cs := list_ascii_of_string s in
  if (Nat.eqb (List.length cs) 24 && forallb is_hex_digit cs)%bool
  then Ok (mkObjectId (string_of_list_ascii (map hex_lower cs)))
  else Raise (InvalidId s).

(** ** Python's view of a value *)

(** Truthiness, as [not x] and [if x] see it. *)
Definition truthy (v : value) : bool :=
  match v with
  | VNull => false
  | VBool b => b
  | VInt n => negb (Z.eqb n 0)
  | VFloat f => negb (PrimFloat.eqb f 0)
  | VStr s => negb (String.eqb s "")
  | VObjectId _ => true
  | VStrs l => negb (Nat.eqb (List.length l) 0)
  | VVector v => negb (Nat.eqb (List.length v) 0)
  end.

(** [isinstance(x, str)] *)
Definition is_str (v : value) : bool :=
  match v with VStr _ => true | _ => false end.

(** ** The store's query language, as far as this program uses it *)

(** The right-hand side of a field in a filter: a value to equal, or a
    document of operators. An operator document is a Python [dict]: a
    literal that repeats a key keeps the last binding only, which the
    embedding renders by building literals with successive inserts. *)
Inductive cond :=
  | CEq (v : value)
  | COps (ops : gmap string value).

Abbreviation Query := (gmap string cond).

(** Equality match of a stored field against a query operand: a missing
    field matches [null]; an array field matches when it is the operand or
    contains it. (Operands in this program are an ObjectId, [null] and a
    string.) *)
Definition eq_match (fv : option value) (arg : value) : bool :=
  match fv with
  | None => bool_decide (arg = VNull)
  | Some (VStrs l) =>
      bool_decide (VStrs l = arg)
      || match arg with VStr s => bool_decide (s ∈ l) | _ => false end
  | Some (VVector l) =>
      bool_decide (VVector l = arg)
      || match arg with VFloat f => bool_decide (f ∈ l) | _ => false end
  | Some x => bool_decide (x = arg)
  end.

(** One operator applied to a field. [$exists] and [$ne] are the operators
    the program sends; any other operator is rejected. *)
Definition eval_op (op : string) (arg : value) (fv : option value) : bool :=
  if String.eqb op "$exists" then Bool.eqb (truthy arg) (bool_decide (is_Some fv))
  else if String.eqb op "$ne" then negb (eq_match fv arg)
  else false.

Definition eval_cond (c : cond) (fv : option value) : bool :=
  match c with
  | CEq v => eq_match fv v
  | COps ops => bool_decide (map_Forall (fun op arg => eval_op op arg fv = true) ops)
  end.

(** A document matches a filter when every field condition holds. *)
Definition matches (q : Query) (d : Document) : bool :=
  bool_decide (map_Forall (fun field c => eval_cond c (d !! field) = true) q).

(** ** The collection, server side *)

(** [cursor.skip(n).limit(m)] as the server applies it: a limit of 0 means
    no limit, a negative limit is its absolute value. *)
Definition apply_skip_limit (skip limit : Z) (docs : list Document) : list Document :=
  let rest := drop (Z.to_nat skip) docs in
  if limit =? 0 then rest else take (Z.abs_nat limit) rest.

Definition server_find (q : Query) (skip limit : Z) (docs : list Document) : list Document :=
  apply_skip_limit skip limit (List.filter (matches q) docs).

Definition server_find_one (q : Query) (docs : list Document) : option Document :=
  List.find (matches q) docs.

Definition server_count (q : Query) (docs : list Document) : Z :=
  Z.of_nat (List.length (List.filter (matches q) docs)).

(** [UpdateResult] *)
Record UpdateResult := mkUpdateResult { matched_count : Z; modified_count : Z }.

(** [update_one(filter, {"$set": fields})]: the first document matching the
    filter receives the fields; it counts as modified only when that changes
    it. *)
Fixpoint server_update_one (q : Query) (fields : Document) (docs : list Document)
  : UpdateResult * list Document :=
  match docs with
  | [] => (mkUpdateResult 0 0, [])
  | d :: rest =>
      if matches q d then
        if bool_decide (fields ∪ d = d) then (mkUpdateResult 1 0, d :: rest)
        else (mkUpdateResult 1 1, (fields ∪ d) :: rest)
      else
        let '(r, rest') := server_update_one q fields rest in (r, d :: rest')
  end.

(** The [$vectorSearch] stage of an aggregation pipeline. *)
Record VectorSearchSpec := mkVectorSearchSpec {
  vs_index : string;
  vs_path : string;
  vs_queryVector : list float;
  vs_numCandidates : Z;
  vs_limit : Z
}.

(** What a [$project] stage does with one output field. *)
Inductive Projection :=
  | Include                  (* [field: 1] *)
  | Meta (name : string).    (* [field: {"$meta": name}] *)

Inductive Stage :=
  | VectorSearch (spec : VectorSearchSpec)
  | Project (fields : list (string * Projection)).

(** ** Configuration ([app/config.py]) *)

Record Settings := mkSettings {
  MONGODB_DB_NAME : string;
  MONGODB_COLLECTION_NAME : string;
  EMBEDDING_MODEL_NAME : string;
  VECTOR_INDEX_NAME : string;
  VECTOR_DIMENSION : Z
}.

(** The values used when the environment variables are unset. *)
Definition default_settings : Settings :=
  {| MONGODB_DB_NAME := "sample_mflix";
     MONGODB_COLLECTION_NAME := "movies";
     EMBEDDING_MODEL_NAME := "sentence-transformers/all-MiniLM-L6-v2";
     VECTOR_INDEX_NAME := "movie_embeddings_index";
     VECTOR_DIMENSION := 384 |}.

(** ** The environment *)

(** How [MongoClient(uri)] followed by the ping ends. *)
Inductive ConnectOutcome :=
  | Connected
  | ConnectionFailure          (* caught by [connect], which returns False *)
  | ConnectRaises (e : exn).   (* any other exception: [connect] lets it through *)

Record Env := mkEnv {
  settings : Settings;
  (* the MongoDB deployment *)
  mongo_connect : ConnectOutcome;
  vector_index : VectorSearchSpec -> list Document -> result (list (Document * float));
  (* sentence-transformers *)
  transformer_loads : bool;
  model_encode : string -> result (list float);
  model_encode_batch : list value -> result (list (list float));
  (* Python built-ins on the types whose text form the program never reads *)
  str_other : value -> string;
  int_truediv : Z -> Z -> float;
  float_round : float -> Z -> float;
  (* pydantic's coercion of a value to a field type *)
  as_str : value -> option string;
  as_int : value -> option Z;
  as_float : value -> option float;
  as_str_list : value -> option (list string)
}.

(** ** The world and the monad *)

(** The history: calls to the model and to the store client, oldest first. *)
Inductive Event :=
  | EvLoadModel                                  (* SentenceTransformer(name) *)
  | EvEncode (text : string)                     (* model.encode(text) *)
  | EvEncodeBatch (texts : list value)           (* model.encode(texts) *)
  | EvAggregate (pipeline : list Stage)          (* collection.aggregate(pipeline) *)
  | EvPersist (movie_id : string) (embedding : list float) (ok : bool).
      (* update_movie_embedding(movie_id, embedding) returned [ok] *)

Record World := mkWorld {
  server : list Document;   (* the remote collection, in natural order *)
  collection : bool;        (* mongodb.collection is not None *)
  model : bool;             (* embedding_model.model is not None *)
  trace : list Event
}.

Definition set_server (s : list Document) (w : World) : World :=
  mkWorld s (collection w) (model w) (trace w).
Definition set_collection (c : bool) (w : World) : World :=
  mkWorld (server w) c (model w) (trace w).
Definition set_model (m : bool) (w : World) : World :=
  mkWorld (server w) (collection w) m (trace w).
Definition add_event (ev : Event) (w : World) : World :=
  mkWorld (server w) (collection w) (model w) (trace w ++ [ev]).

Definition M (A : Type) : Type := World -> result A * World.

Definition ret {A} (a : A) : M A := fun w => (Ok a, w).
Definition raise {A} (e : exn) : M A := fun w => (Raise e, w).
Definition bind {A B} (m : M A) (k : A -> M B) : M B :=
  fun w => match m w with
           | (Ok a, w') => k a w'
           | (Raise e, w') => (Raise e, w')
           end.
(** [try: m  except Exception as e: h e] *)
Definition try_except {A} (m : M A) (h : exn -> M A) : M A :=
  fun w => match m w with
           | (Ok a, w') => (Ok a, w')
           | (Raise e, w') => h e w'
           end.
Definition lift {A} (r : result A) : M A := fun w => (r, w).
Definition gets {A} (f : World -> A) : M A := fun w => (Ok (f w), w).
Definition modify (f : World -> World) : M unit := fun w => (Ok tt, f w).
Definition emit (ev : Event) : M unit := modify (add_event ev).

Declare Scope monad_scope.
Delimit Scope monad_scope with monad.
Notation "x <- c1 ;; c2" := (bind c1 (fun x => c2))
  (at level 100, c1 at next level, right associativity) : monad_scope.
Notation "c1 ;; c2" := (bind c1 (fun _ => c2))
  (at level 100, right associativity) : monad_scope.
#[local] Open Scope monad_scope.

(** Exceptions without state: [result] is a monad of its own. *)
Definition result_bind {A B} (r : result A) (k : A -> result B) : result B :=
  match r with
  | Ok a => k a
  | Raise e => Raise e
  end.
Notation "'let?' x := c 'in' k" := (result_bind c (fun x => k))
  (at level 100, x name, c at next level, right associativity) : monad_scope.

(** [[f(x) for x in xs]], stopping at the first exception. *)
Fixpoint traverse {A B} (f : A -> result B) (xs : list A) : result (list B) :=
  match xs with
  | [] => Ok []
  | x :: rest => let? y := f x in let? ys := traverse f rest in Ok (y :: ys)
  end.

(** [d[k]] *)
Definition getitem (d : Document) (k : string) : result value :=
  match d !! k with
  | Some v => Ok v
  | None => Raise (KeyError k)
  end.

(** A method call on an object that may be [None]: the attribute lookup
    comes before the arguments are evaluated. *)
Inductive Collection := CollectionHandle.

Definition method {A} (obj : option Collection) (name : string) (call : M A) : M A :=
  match obj with
  | Some _ => call
  | None => raise (AttributeError name)
  end.

(** ** Request and response models ([app/models.py]) *)

Module SearchRequest.
Record t := mk { query : string; limit : Z }.
(** [query: min_length=1], [limit: ge=1, le=20] *)
Definition valid (r : t) : Prop :=
  (1 <= String.length (query r))%nat /\ 1 <= limit r <= 20.
End SearchRequest.

Module SearchResult.
Record t := mk {
  id : string;                    (* alias "_id" *)
  title : string;
  plot : option string;
  year : option Z;
  genres : option (list string);
  cast : option (list string);
  score : float
}.
End SearchResult.

Module SearchResponse.
Record t := mk { query : string; results : list SearchResult.t; count : Z }.
End SearchResponse.

Module EmbeddingGenerationRequest.
(** Both fields are [Optional[int]]: an explicit null is accepted. *)
Record t := mk { limit : option Z; skip : option Z }.
(** [limit: ge=1, le=1000], [skip: ge=0] *)
Definition valid (r : t) : Prop :=
  match limit r with Some l => 1 <= l <= 1000 | None => True end /\
  match skip r with Some s => 0 <= s | None => True end.
End EmbeddingGenerationRequest.

Module EmbeddingGenerationResponse.
Record t := mk { success : bool; processed : Z; message : string }.
End EmbeddingGenerationResponse.

(** The dictionary [embedding_stats] returns. *)
Module Stats.
Record t := mk {
  total_movies : Z;
  with_embeddings : Z;
  without_embeddings : Z;
  completion_percentage : value
}.
End Stats.

Section Program.

Context (E : Env).

(** [str(x)] *)
Definition py_str (v : value) : string :=
  match v with
  | VStr s => s
  | VObjectId o => oid_hex o
  | _ => str_other E v
  end.

(** [[0.0] * n]: empty when [n] is not positive. *)
Definition zero_vector : list float :=
  repeat 0%float (Z.to_nat (VECTOR_DIMENSION (settings E))).

(** ** [app/database.py] *)

Definition connect : M bool :=
  fun w => match mongo_connect E with
           | Connected => (Ok true, set_collection true w)
           | ConnectionFailure => (Ok false, w)
           | ConnectRaises e => (Raise e, w)
           end.

Definition get_collection : M (option Collection) :=
  c <- gets collection ;;
  (if c then ret tt else (connect ;; ret tt)) ;;
  c' <- gets collection ;;
  ret (if c' then Some CollectionHandle else None).

(** One output row of a pipeline: the document and its [vectorSearchScore]. *)
Definition project_field (d : Document) (score : option float)
    (out : Document) (f : string * Projection) : Document :=
  match f with
  | (k, Include) => match d !! k with Some v => <[k := v]> out | None => out end
  | (k, Meta name) =>
      if String.eqb name "vectorSearchScore"
      then match score with Some s => <[k := VFloat s]> out | None => out end
      else out
  end.

Definition project (fields : list (string * Projection)) (row : Document * option float)
  : Document * option float :=
  (fold_left (project_field (fst row) (snd row)) fields ∅, snd row).

Fixpoint run_stages (stages : list Stage) (docs : list Document)
    (rows : list (Document * option float)) : result (list (Document * option float)) :=
  match stages with
  | [] => Ok rows
  | VectorSearch spec :: rest =>
      match vector_index E spec docs with
      | Ok found => run_stages rest docs (map (fun r => (fst r, Some (snd r))) found)
      | Raise e => Raise e
      end
  | Project fields :: rest => run_stages rest docs (map (project fields) rows)
  end.

(** [list(collection.aggregate(pipeline))] *)
Definition aggregate (c : option Collection) (pipeline : list Stage) : M (list Document) :=
  method c "aggregate"
    (emit (EvAggregate pipeline) ;;
     docs <- gets server ;;
     rows <- lift (run_stages pipeline docs (map (fun d => (d, None)) docs)) ;;
     ret (map fst rows)).

(** [if '_id' in result: result['_id'] = str(result['_id'])] *)
Definition stringify_id (d : Document) : Document :=
  match d !! "_id" with
  | Some v => <["_id" := VStr (py_str v)]> d
  | None => d
  end.

(** The two stages of the pipeline [vector_search] builds. *)
Definition search_stage (query_embedding : list float) (limit : Z) : VectorSearchSpec :=
  {| vs_index := VECTOR_INDEX_NAME (settings E);
     vs_path := "plot_embedding";
     vs_queryVector := query_embedding;
     vs_numCandidates := limit * 10;
     vs_limit := limit |}.

Definition projected_fields : list (string * Projection) :=
  [ ("_id", Include); ("title", Include); ("plot", Include);
    ("year", Include); ("genres", Include); ("cast", Include);
    ("score", Meta "vectorSearchScore") ].

Definition vector_search (query_embedding : list float) (limit : Z) : M (list Document) :=
  collection <- get_collection ;;
  let pipeline :=
    [ VectorSearch (search_stage query_embedding limit); Project projected_fields ] in
  results <- aggregate collection pipeline ;;
  ret (map stringify_id results).

(** [{"_id": oid}] *)
Definition by_id (oid : ObjectId) : Query := {[ "_id" := CEq (VObjectId oid) ]}.

(** [collection.update_one(filter, {"$set": fields})] *)
Definition update_one (c : option Collection) (filter : M Query) (fields : Document)
  : M UpdateResult :=
  method c "update_one"
    (q <- filter ;;
     docs <- gets server ;;
     let '(r, docs') := server_update_one q fields docs in
     modify (set_server docs') ;;
     ret r).

Definition update_movie_embedding (movie_id : string) (embedding : list float) : M bool :=
  collection <- get_collection ;;
  ok <- try_except
          (result <- update_one collection
                       (oid <- lift (ObjectId_of_str movie_id) ;; ret (by_id oid))
                       {[ "plot_embedding" := VVector embedding ]} ;;
           ret (0 <? modified_count result))
          (fun e => ret false) ;;
  emit (EvPersist movie_id embedding ok) ;;
  ret ok.

(** [collection.find_one(filter)] *)
Definition find_one (c : option Collection) (filter : M Query) : M (option Document) :=
  method c "find_one"
    (q <- filter ;;
     docs <- gets server ;;
     ret (server_find_one q docs)).

(** [list(collection.find(query).skip(skip).limit(limit))]: the cursor
    rejects a skip or limit that is not an integer and a negative skip. *)
Definition find_skip_limit (c : option Collection) (q : Query) (skip limit : option Z)
  : M (list Document) :=
  method c "find"
    (s <- match skip with
          | None => raise (TypeError "skip must be an integer")
          | Some s => if s <? 0 then raise (ValueError "skip must be >= 0") else ret s
          end ;;
     l <- match limit with
          | None => raise (TypeError "limit must be an integer")
          | Some l => ret l
          end ;;
     docs <- gets server ;;
     ret (server_find q s l docs)).

(** [collection.count_documents(filter)] *)
Definition count_documents (c : option Collection) (q : Query) : M Z :=
  method c "count_documents"
    (docs <- gets server ;;
     ret (server_count q docs)).

(** ** [app/embeddings.py] *)

Definition load_model : M bool :=
  try_except
    (emit EvLoadModel ;;
     (if transformer_loads E then modify (set_model true)
      else raise (ModelError "SentenceTransformer")) ;;
     ret true)
    (fun e => ret false).

(** [self.model.encode(text, convert_to_tensor=False)] followed by [tolist()] *)
Definition encode (text : value) : M (list float) :=
  m <- gets model ;;
  if m then
    match text with
    | VStr s => emit (EvEncode s) ;; lift (model_encode E s)
    | _ => raise (TypeError "encode")
    end
  else raise (AttributeError "encode").

Definition get_embedding (text : value) : M (list float) :=
  m <- gets model ;;
  (if m then ret tt else (load_model ;; ret tt)) ;;
  if negb (truthy text) || negb (is_str text) then
    ret zero_vector
  else
    try_except (encode text) (fun e => ret zero_vector).

(** [self.model.encode(texts, ...)] with every row turned into a list *)
Definition encode_batch (texts : list value) : M (list (list float)) :=
  m <- gets model ;;
  if m then emit (EvEncodeBatch texts) ;; lift (model_encode_batch E texts)
  else raise (AttributeError "encode").

Definition get_embeddings (texts : list value) : M (list (list float)) :=
  m <- gets model ;;
  (if m then ret tt else (load_model ;; ret tt)) ;;
  match texts with
  | [] => ret []
  | _ =>
      try_except (encode_batch texts)
        (fun e => ret (repeat zero_vector (List.length texts)))
  end.

(** ** [app/routes/movies.py] *)

(** A required model field, read from the keyword arguments. *)
Definition required {A} (d : Document) (k : string) (coerce : value -> option A)
  : result A :=
  match d !! k with
  | Some v => match coerce v with
              | Some a => Ok a
              | None => Raise (ValidationError k)
              end
  | None => Raise (ValidationError k)
  end.

(** An [Optional[..] = None] model field. *)
Definition optional {A} (d : Document) (k : string) (coerce : value -> option A)
  : result (option A) :=
  match d !! k with
  | None | Some VNull => Ok None
  | Some v => match coerce v with
              | Some a => Ok (Some a)
              | None => Raise (ValidationError k)
              end
  end.

(** [SearchResult] built from a result unpacked into keyword arguments *)
Definition SearchResult_init (kwargs : Document) : result SearchResult.t :=
  let? id := required kwargs "_id" (as_str E) in
  let? title := required kwargs "title" (as_str E) in
  let? plot := optional kwargs "plot" (as_str E) in
  let? year := optional kwargs "year" (as_int E) in
  let? genres := optional kwargs "genres" (as_str_list E) in
  let? cast := optional kwargs "cast" (as_str_list E) in
  let? score := required kwargs "score" (as_float E) in
  Ok (SearchResult.mk id title plot year genres cast score).

(** [not movie] for the result of [find_one]: [None] or an empty dict. *)
Definition not_movie (movie : option Document) : bool :=
  match movie with
  | None => true
  | Some d => bool_decide (d = ∅)
  end.

Definition get_movie (movie_id : string) : M Document :=
  try_except
    (collection <- get_collection ;;
     movie <- find_one collection
                (oid <- lift (ObjectId_of_str movie_id) ;; ret (by_id oid)) ;;
     if not_movie movie then
       raise (HTTPException 404 (Text "Movie not found"))
     else
       let movie := default ∅ movie in
       id <- lift (getitem movie "_id") ;;
       ret (<["_id" := VStr (py_str id)]> movie))
    (fun e => raise (HTTPException 500 (TextStr "Error fetching movie: " e))).

Definition semantic_search (request : SearchRequest.t) : M SearchResponse.t :=
  try_except
    (query_embedding <- get_embedding (VStr (SearchRequest.query request)) ;;
     results <- vector_search query_embedding (SearchRequest.limit request) ;;
     search_results <- lift (traverse SearchResult_init results) ;;
     ret (SearchResponse.mk (SearchRequest.query request) search_results
            (Z.of_nat (List.length search_results))))
    (fun e => raise (HTTPException 500 (TextStr "Search error: " e))).

(** The filter of the backfill, built as the dict literal builds it: the
    keys in source order, a repeated key overwriting the earlier one. *)
Definition backfill_query : Query :=
  <["plot_embedding" := COps (<["$exists" := VBool false]> ∅)]>
    (<["plot" := COps (<["$ne" := VStr ""]>
                         (<["$ne" := VNull]>
                            (<["$exists" := VBool true]> ∅)))]> ∅).

(** The update loop of [generate_embeddings]. *)
Fixpoint persist_loop (pairs : list (string * list float)) (updated_count : Z) : M Z :=
  match pairs with
  | [] => ret updated_count
  | (movie_id, embedding) :: rest =>
      ok <- update_movie_embedding movie_id embedding ;;
      persist_loop rest (if ok then updated_count + 1 else updated_count)
  end.

Definition generate_embeddings (request : EmbeddingGenerationRequest.t)
  : M EmbeddingGenerationResponse.t :=
  try_except
    (collection <- get_collection ;;
     movies <- find_skip_limit collection backfill_query
                 (EmbeddingGenerationRequest.skip request)
                 (EmbeddingGenerationRequest.limit request) ;;
     match movies with
     | [] =>
         ret (EmbeddingGenerationResponse.mk true 0 "No movies found without embeddings")
     | _ =>
         let plots := map (fun movie => default (VStr "") (movie !! "plot")) movies in
         movie_ids <- lift (traverse (fun movie => let? id := getitem movie "_id" in
                                                   Ok (py_str id)) movies) ;;
         embeddings <- get_embeddings plots ;;
         updated_count <- persist_loop (zip movie_ids embeddings) 0 ;;
         ret (EmbeddingGenerationResponse.mk true updated_count
                ("Successfully generated embeddings for " +:+ pretty updated_count
                 +:+ " movies"))
     end)
    (fun e => raise (HTTPException 500 (TextStr "Error generating embeddings: " e))).

(** [a / b] on integers *)
Definition truediv (a b : Z) : M float :=
  if b =? 0 then raise ZeroDivisionError else ret (int_truediv E a b).

Definition embedding_stats : M Stats.t :=
  try_except
    (collection <- get_collection ;;
     total_movies <- count_documents collection ∅ ;;
     movies_with_embeddings <-
       count_documents collection
         {[ "plot_embedding" := COps (<["$exists" := VBool true]> ∅) ]} ;;
     let movies_without_embeddings := total_movies - movies_with_embeddings in
     completion <-
       (if 0 <? total_movies then
          q <- truediv movies_with_embeddings total_movies ;;
          ret (VFloat (float_round E (q * 100)%float 2))
        else ret (VInt 0)) ;;
     ret (Stats.mk total_movies movies_with_embeddings movies_without_embeddings
            completion))
    (fun e => raise (HTTPException 500 (TextStr "Error getting stats: " e))).

(** ** Notions used to state the properties *)

(** The percentage [embedding_stats] reports for given counts. *)
Definition completion_of (total with_embeddings : Z) : value :=
  if 0 <? total
  then VFloat (float_round E (int_truediv E with_embeddings total * 100)%float 2)
  else VInt 0.

(** The world after the lazy-load preamble shared by both embedding calls. *)
Definition after_lazy_load (w : World) : World :=
  if model w then w
  else (if transformer_loads E then set_model true else fun w => w) (add_event EvLoadModel w).

(** The underlying model errors on [text]: [encode] raises on it, or no
    model could be loaded. *)
Definition model_errors_on (w : World) (text : value) : Prop :=
  exists s, text = VStr s /\
    ((exists e, model_encode E s = Raise e) \/
     (model w = false /\ transformer_loads E = false)).

(** The pipeline [vector_search] sends. *)
Definition sent_pipeline (query_embedding : list float) (limit : Z) : list Stage :=
  [ VectorSearch (search_stage query_embedding limit); Project projected_fields ].

(** The row the program hands back for one hit of the vector index. *)
Definition result_of_row (row : Document * float) : Document :=
  stringify_id (fst (project projected_fields (fst row, Some (snd row)))).

(** One persistence step on the stored collection: the collection after
    the step, and whether the step changed it. *)
Definition persist_one (movie_id : string) (embedding : list float)
    (docs : list Document) : bool * list Document :=
  match ObjectId_of_str movie_id with
  | Ok oid =>
      let docs' :=
        snd (server_update_one (by_id oid) {[ "plot_embedding" := VVector embedding ]} docs) in
      (bool_decide (docs' ≠ docs), docs')
  | Raise _ => (false, docs)
  end.

(** The steps for a list of pairs, one after the other, in list order. *)
Fixpoint persist_all (pairs : list (string * list float)) (docs : list Document)
  : list bool * list Document :=
  match pairs with
  | [] => ([], docs)
  | (movie_id, embedding) :: rest =>
      let '(ok, docs1) := persist_one movie_id embedding docs in
      let '(oks, docs2) := persist_all rest docs1 in
      (ok :: oks, docs2)
  end.

(** The history entries of those steps. *)
Definition persist_events (pairs : list (string * list float)) (oks : list bool)
  : list Event :=
  zip_with (fun p ok => EvPersist (fst p) (snd p) ok) pairs oks.

(** How many steps succeeded. *)
Definition successes (oks : list bool) : Z :=
  Z.of_nat (List.length (List.filter (fun ok => ok) oks)).

(** The documents that still lack a vector. *)
Definition lacks_embedding (d : Document) : bool :=
  negb (bool_decide (is_Some (d !! "plot_embedding"))).

Definition unembedded (docs : list Document) : Z :=
  Z.of_nat (List.length (List.filter lacks_embedding docs)).

(** The texts and the identifiers [generate_embeddings] extracts. *)
Definition plots_of (movies : list Document) : list value :=
  map (fun movie => default (VStr "") (movie !! "plot")) movies.

Definition ids_of (movies : list Document) : list string :=
  map (fun movie => py_str (default VNull (movie !! "_id"))) movies.

End Program.

(** A computation keeps a relation between the world it starts in and the
    world it leaves, whether it returns or raises. *)
Definition keeps {A} (R : World -> World -> Prop) (m : M A) : Prop :=
  forall w, R w (snd (m w)).

(** The set of documents lacking a vector has not grown. *)
Definition no_more_unembedded (w w' : World) : Prop :=
  unembedded (server w') <= unembedded (server w).

(** ** The rest of the program *)

(** The dictionary [health_check] returns. *)
Module Health.
Record t := mk {
  status : string;
  version : string;
  database : message;
  embedding_model : string
}.
End Health.

Section MoreProgram.

Context (E : Env).

(** [list(collection.find(query).limit(limit))] *)
Definition find_limit (c : option Collection) (q : Query) (limit : Z)
  : M (list Document) :=
  method c "find"
    (docs <- gets server ;;
     ret (server_find q 0 limit docs)).

(** [MongoDB.find_movies] ([app/database.py]) *)
Definition find_movies (query : Query) (limit : Z) : M (list Document) :=
  collection <- get_collection E ;;
  movies <- find_limit collection query limit ;;
  ret (map (stringify_id E) movies).

(** [get_movies] ([app/routes/movies.py]); both parameters are integers
    by the time the handler runs. *)
Definition get_movies (limit skip : Z) : M (list Document) :=
  try_except
    (collection <- get_collection E ;;
     movies <- find_skip_limit collection ∅ (Some skip) (Some limit) ;;
     ret (map (stringify_id E) movies))
    (fun e => raise (HTTPException 500 (TextStr "Error fetching movies: " e))).

(** [startup_event] ([app/main.py]): the two results are only logged. *)
Definition startup_event : M unit :=
  connected <- connect E ;;
  loaded <- load_model E ;;
  ret tt.

Section Main.

(** [settings.APP_VERSION] *)
Context (APP_VERSION : string).

(** [health_check] ([app/main.py]) *)
Definition health_check : M Health.t :=
  db_status <- try_except
                 (get_collection E ;; ret (Text "connected"))
                 (fun e => ret (TextStr "disconnected: " e)) ;;
  ret (Health.mk "healthy" APP_VERSION db_status (EMBEDDING_MODEL_NAME (settings E))).

End Main.

Section Dimension.

(** What [model.get_sentence_embedding_dimension()] answers. *)
Context (native_dimension : Z).

(** [EmbeddingModel.get_dimension] ([app/embeddings.py]) *)
Definition get_dimension : M Z :=
  m <- gets model ;;
  (if m then ret tt else (load_model E ;; ret tt)) ;;
  m' <- gets model ;;
  if m' then ret native_dimension
  else raise (AttributeError "get_sentence_embedding_dimension").

End Dimension.

(** *** Notions used to state the further properties *)

(** The store is left exactly as it was. *)
Definition same_server (w w' : World) : Prop := server w' = server w.

(** An exception that is an [HTTPException] with status 500. *)
Definition is_500 (e : exn) : Prop :=
  exists detail, e = HTTPException 500 detail.

(** The identifier is in the form [str] prints: parsing it gives it back. *)
Definition canonical (o : ObjectId) : Prop := ObjectId_of_str (oid_hex o) = Ok o.

(** Every stored document is keyed by a canonical ObjectId, and no two
    documents share a key. *)
Definition keyed_by_ObjectId (docs : list Document) : Prop :=
  Forall (fun d : Document => exists o, d !! "_id" = Some (VObjectId o) /\ canonical o) docs /\
  NoDup ((fun d : Document => d !! "_id") <$> docs).

(** The filter [embedding_stats] counts with. *)
Definition has_embedding_query : Query :=
  {[ "plot_embedding" := COps (<["$exists" := VBool true]> ∅) ]}.

End MoreProgram.

(** Nothing but [plot_embedding] fields differs between the two stores. *)
Definition same_but_embeddings (w w' : World) : Prop :=
  map (delete "plot_embedding") (server w') = map (delete "plot_embedding") (server w).

(** How many times the history shows the model being constructed. *)
Definition loads (history : list Event) : nat :=
  List.length (List.filter (fun ev => match ev with EvLoadModel => true | _ => false end)
                 history).

(** What a list of projected fields says about one key. *)
Fixpoint field_rule (fields : list (string * Projection)) (k : string)
  : option Projection :=
  match fields with
  | [] => None
  | (k0, p) :: rest => if String.eqb k0 k then Some p else field_rule rest k
  end.

(** ** A sample environment and sample documents *)

Definition sample_vector : list float := [1%float; 2%float; 3%float].

(** Connected store that returns the first [limit] documents with score 1,
    a model that embeds every text as [sample_vector], strict coercions. *)
Definition sample_env : Env :=
  {| settings := mkSettings "sample_mflix" "movies" "all-MiniLM-L6-v2" "movie_embeddings_index" 3;
     mongo_connect := Connected;
     vector_index := fun spec docs =>
       Ok (take (Z.to_nat (vs_limit spec)) (map (fun d => (d, 1%float)) docs));
     transformer_loads := true;
     model_encode := fun _ => Ok sample_vector;
     model_encode_batch := fun texts => Ok (map (fun _ => sample_vector) texts);
     str_other := fun _ => "";
     int_truediv := fun _ _ => 0%float;
     float_round := fun f _ => f;
     as_str := fun v => match v with VStr s => Some s | _ => None end;
     as_int := fun v => match v with VInt n => Some n | _ => None end;
     as_float := fun v => match v with VFloat f => Some f | _ => None end;
     as_str_list := fun v => match v with VStrs l => Some l | _ => None end |}.

(** The same, with a model whose [encode] always raises. *)
Definition failing_model_env : Env :=
  {| settings := settings sample_env;
     mongo_connect := Connected;
     vector_index := vector_index sample_env;
     transformer_loads := true;
     model_encode := fun _ => Raise (ModelError "encode");
     model_encode_batch := fun _ => Raise (ModelError "encode");
     str_other := str_other sample_env;
     int_truediv := int_truediv sample_env;
     float_round := float_round sample_env;
     as_str := as_str sample_env;
     as_int := as_int sample_env;
     as_float := as_float sample_env;
     as_str_list := as_str_list sample_env |}.

Definition oid_a : ObjectId := mkObjectId "507f1f77bcf86cd799439011".
Definition oid_b : ObjectId := mkObjectId "507f1f77bcf86cd799439012".
Definition oid_c : ObjectId := mkObjectId "507f1f77bcf86cd799439013".

(** A movie with a plot and no embedding. *)
Definition movie_a : Document :=
  <["plot" := VStr "robots in space"]>
    (<["title" := VStr "A"]> {[ "_id" := VObjectId oid_a ]}).

(** A movie whose plot is null. *)
Definition movie_b : Document :=
  <["plot" := VNull]> (<["title" := VStr "B"]> {[ "_id" := VObjectId oid_b ]}).

(** A movie that already has the embedding [sample_vector]. *)
Definition movie_c : Document :=
  <["plot_embedding" := VVector sample_vector]>
    (<["plot" := VStr "a heist"]>
       (<["title" := VStr "C"]> {[ "_id" := VObjectId oid_c ]})).

(** A movie keyed by a string rather than an ObjectId: [str(_id)] is not
    a valid ObjectId, so its update fails. *)
Definition movie_d : Document :=
  <["plot" := VStr "a prison"]>
    (<["title" := VStr "D"]> {[ "_id" := VStr "tt0111161" ]}).

Definition world_of (docs : list Document) : World := mkWorld docs true true [].

(** An environment in which the model cannot be constructed. *)
Definition no_model_env : Env :=
  {| settings := settings sample_env;
     mongo_connect := Connected;
     vector_index := vector_index sample_env;
     transformer_loads := false;
     model_encode := model_encode sample_env;
     model_encode_batch := model_encode_batch sample_env;
     str_other := str_other sample_env;
     int_truediv := int_truediv sample_env;
     float_round := float_round sample_env;
     as_str := as_str sample_env;
     as_int := as_int sample_env;
     as_float := as_float sample_env;
     as_str_list := as_str_list sample_env |}.

(** An environment whose model answers with a vector of the wrong length. *)
Definition short_vector_env : Env :=
  {| settings := settings sample_env;
     mongo_connect := Connected;
     vector_index := vector_index sample_env;
     transformer_loads := true;
     model_encode := fun _ => Ok [1%float];
     model_encode_batch := fun texts => Ok (map (fun _ => [1%float]) texts);
     str_other := str_other sample_env;
     int_truediv := int_truediv sample_env;
     float_round := float_round sample_env;
     as_str := as_str sample_env;
     as_int := as_int sample_env;
     as_float := as_float sample_env;
     as_str_list := as_str_list sample_env |}.

(** An environment whose connection attempts fail with ConnectionFailure. *)
Definition unreachable_env : Env :=
  {| settings := settings sample_env;
     mongo_connect := ConnectionFailure;
     vector_index := vector_index sample_env;
     transformer_loads := true;
     model_encode := model_encode sample_env;
     model_encode_batch := model_encode_batch sample_env;
     str_other := str_other sample_env;
     int_truediv := int_truediv sample_env;
     float_round := float_round sample_env;
     as_str := as_str sample_env;
     as_int := as_int sample_env;
     as_float := as_float sample_env;
     as_str_list := as_str_list sample_env |}.

(** A store with a fourth movie, eligible like [movie_a]. *)
Definition oid_e : ObjectId := mkObjectId "507f1f77bcf86cd799439015".
Definition movie_e : Document :=
  <["plot" := VStr "a storm"]>
    (<["title" := VStr "E"]> {[ "_id" := VObjectId oid_e ]}).

(** ** Reasoning about the monad *)

Lemma bind_inv {A B} (m : M A) (k : A -> M B) w r w2 :
  bind m k w = (r, w2) ->
  (exists a w1, m w = (Ok a, w1) /\ k a w1 = (r, w2)) \/
  (exists e, m w = (Raise e, w2) /\ r = Raise e).
Proof.
  unfold bind. destruct (m w) as [[a|e] w1]; intros H.
  - left. eauto.
  - right. inversion H; subst. eauto.
Qed.

(** Rules for [keeps], for any reflexive and transitive relation. *)
Section Keeps.

Context (R : World -> World -> Prop) `{!PreOrder R}.

Lemma keeps_ret {A} (a : A) : keeps R (ret a).
Proof. intros w. simpl. reflexivity. Qed.

Lemma keeps_raise {A} e : keeps R (raise e : M A).
Proof. intros w. simpl. reflexivity. Qed.

Lemma keeps_lift {A} (r : result A) : keeps R (lift r).
Proof. intros w. simpl. reflexivity. Qed.

Lemma keeps_gets {A} (f : World -> A) : keeps R (gets f).
Proof. intros w. simpl. reflexivity. Qed.

Lemma keeps_modify f : (forall w, R w (f w)) -> keeps R (modify f).
Proof. intros H w. apply H. Qed.

Lemma keeps_bind {A B} (m : M A) (k : A -> M B) :
  keeps R m -> (forall a, keeps R (k a)) -> keeps R (bind m k).
Proof.
  intros Hm Hk w. unfold bind. specialize (Hm w).
  destruct (m w) as [[a|e] w1]; simpl in *; [|done].
  etransitivity; [exact Hm | apply Hk].
Qed.

Lemma keeps_try_except {A} (m : M A) h :
  keeps R m -> (forall e, keeps R (h e)) -> keeps R (try_except m h).
Proof.
  intros Hm Hh w. unfold try_except. specialize (Hm w).
  destruct (m w) as [[a|e] w1]; simpl in *; [done|].
  etransitivity; [exact Hm | apply Hh].
Qed.

Lemma keeps_method {A} c name (call : M A) :
  keeps R call -> keeps R (method c name call).
Proof. intros H. destruct c; [done | apply keeps_raise]. Qed.

End Keeps.

#[global] Instance no_more_unembedded_preorder : PreOrder no_more_unembedded.
Proof.
  split.
  - intros w. unfold no_more_unembedded. lia.
  - intros a b c. unfold no_more_unembedded. lia.
Qed.

Lemma same_server_no_more w w' : server w' = server w -> no_more_unembedded w w'.
Proof. intros H. unfold no_more_unembedded. rewrite H. lia. Qed.

Section Facts.

Context (E : Env).

(** [get_collection], case by case. *)
Lemma get_collection_run w :
  get_collection E w =
    if collection w then (Ok (Some CollectionHandle), w)
    else match mongo_connect E with
         | Connected => (Ok (Some CollectionHandle), set_collection true w)
         | ConnectionFailure => (Ok None, w)
         | ConnectRaises e => (Raise e, w)
         end.
Proof.
  unfold get_collection, connect, bind, gets, ret. simpl.
  destruct (collection w) eqn:Hc; simpl; [by rewrite Hc|].
  destruct (mongo_connect E); simpl; by rewrite ?Hc.
Qed.

(** With the connection open, [get_collection] hands out the collection and
    changes nothing. *)
Lemma get_collection_connected w :
  collection w = true -> get_collection E w = (Ok (Some CollectionHandle), w).
Proof.
  intros H. unfold get_collection, bind, gets, ret. simpl.
  rewrite H. simpl. by rewrite H.
Qed.

(** *** Stats *)

Lemma matches_empty d : matches ∅ d = true.
Proof. unfold matches. apply bool_decide_eq_true. apply map_Forall_empty. Qed.

Lemma server_count_all docs : server_count ∅ docs = Z.of_nat (List.length docs).
Proof.
  unfold server_count. f_equal. f_equal.
  induction docs as [|d docs IH]; simpl; [done|].
  by rewrite matches_empty, IH.
Qed.

Lemma embedding_stats_connected w :
  collection w = true ->
  let total := server_count ∅ (server w) in
  let with_embeddings :=
    server_count {[ "plot_embedding" := COps (<["$exists" := VBool true]> ∅) ]} (server w) in
  embedding_stats E w =
    (Ok (Stats.mk total with_embeddings (total - with_embeddings)
           (completion_of E total with_embeddings)), w).
Proof.
  intros Hc total with_embeddings.
  unfold embedding_stats, try_except, bind. rewrite (get_collection_connected w Hc).
  unfold count_documents, method, bind, gets, ret. fold total. fold with_embeddings.
  unfold completion_of, truediv, raise, ret.
  destruct (0 <? total) eqn:Hpos; [|done].
  destruct (total =? 0) eqn:Hz; [lia|done].
Qed.

(** *** The embedder *)

Lemma zero_vector_length :
  0 <= VECTOR_DIMENSION (settings E) ->
  Z.of_nat (List.length (zero_vector E)) = VECTOR_DIMENSION (settings E).
Proof. intros H. unfold zero_vector. rewrite repeat_length. lia. Qed.

Lemma zero_vector_zeros : Forall (fun x => x = 0%float) (zero_vector E).
Proof.
  unfold zero_vector. apply List.Forall_forall. intros x Hx.
  by apply repeat_spec in Hx.
Qed.

(** [load_model] never raises; it records the attempt and leaves the store
    alone. *)
Lemma load_model_run w :
  load_model E w =
    (Ok (transformer_loads E),
     (if transformer_loads E then set_model true else fun w => w) (add_event EvLoadModel w)).
Proof.
  unfold load_model, try_except, bind, emit, modify, raise, ret.
  by destruct (transformer_loads E).
Qed.

Lemma after_lazy_load_server w : server (after_lazy_load E w) = server w.
Proof. unfold after_lazy_load. destruct (model w), (transformer_loads E); done. Qed.

Lemma after_lazy_load_collection w : collection (after_lazy_load E w) = collection w.
Proof. unfold after_lazy_load. destruct (model w), (transformer_loads E); done. Qed.

Lemma after_lazy_load_trace w :
  trace (after_lazy_load E w) = trace w ++ (if model w then [] else [EvLoadModel]).
Proof.
  unfold after_lazy_load. destruct (model w); simpl; [by rewrite app_nil_r|].
  by destruct (transformer_loads E).
Qed.

Lemma after_lazy_load_model w :
  model (after_lazy_load E w) = model w || transformer_loads E.
Proof.
  unfold after_lazy_load.
  destruct (model w) eqn:Hm, (transformer_loads E); simpl; by rewrite ?Hm.
Qed.

Lemma get_embedding_unfold text w :
  get_embedding E text w =
    (if negb (truthy text) || negb (is_str text) then ret (zero_vector E)
     else try_except (encode E text) (fun e => ret (zero_vector E))) (after_lazy_load E w).
Proof.
  unfold get_embedding, after_lazy_load, bind, gets.
  destruct (model w); [done|]. by rewrite load_model_run.
Qed.

Lemma get_embeddings_unfold texts w :
  get_embeddings E texts w =
    match texts with
    | [] => ret []
    | _ => try_except (encode_batch E texts)
             (fun e => ret (repeat (zero_vector E) (List.length texts)))
    end (after_lazy_load E w).
Proof.
  unfold get_embeddings, after_lazy_load, bind, gets.
  destruct (model w); [done|]. by rewrite load_model_run.
Qed.

(** *** The store *)

Lemma server_update_one_changes q fields docs :
  (modified_count (fst (server_update_one q fields docs)) = 0 /\
   snd (server_update_one q fields docs) = docs) \/
  (modified_count (fst (server_update_one q fields docs)) = 1 /\
   snd (server_update_one q fields docs) ≠ docs).
Proof.
  induction docs as [|d docs IH]; simpl; [by left|].
  destruct (matches q d).
  - case_bool_decide as Hsame; simpl; [by left|].
    right. split; [done|]. intros Heq. by inversion Heq.
  - destruct (server_update_one q fields docs) as [r docs'] eqn:Hrun. simpl in *.
    destruct IH as [[Hm ->] | [Hm Hne]]; [by left|].
    right. split; [done|]. intros Heq. by inversion Heq.
Qed.

Lemma server_update_one_absent q fields docs :
  server_find_one q docs = None ->
  server_update_one q fields docs = (mkUpdateResult 0 0, docs).
Proof.
  unfold server_find_one.
  induction docs as [|d docs IH]; simpl; [done|].
  destruct (matches q d); [done|]. intros H. by rewrite (IH H).
Qed.

Lemma server_update_one_same q fields docs d :
  server_find_one q docs = Some d -> fields ∪ d = d ->
  server_update_one q fields docs = (mkUpdateResult 1 0, docs).
Proof.
  unfold server_find_one.
  induction docs as [|d' docs IH]; simpl; [done|].
  destruct (matches q d').
  - intros [= ->] Hsame. by rewrite bool_decide_eq_true_2.
  - intros H Hsame. by rewrite (IH H Hsame).
Qed.

Lemma set_field_same (d : Document) k v :
  d !! k = Some v -> ({[ k := v ]} : Document) ∪ d = d.
Proof. intros H. rewrite <- insert_union_singleton_l. by apply insert_id. Qed.

Lemma set_server_same w : set_server (server w) w = w.
Proof. by destruct w. Qed.

(** With the connection open, [update_movie_embedding] performs exactly
    one [persist_one] step, reports whether it changed the collection, and
    never raises. *)
Lemma update_movie_embedding_connected w movie_id embedding :
  collection w = true ->
  update_movie_embedding E movie_id embedding w =
    (Ok (fst (persist_one movie_id embedding (server w))),
     add_event (EvPersist movie_id embedding
                  (fst (persist_one movie_id embedding (server w))))
       (set_server (snd (persist_one movie_id embedding (server w))) w)).
Proof.
  intros Hc. unfold update_movie_embedding, persist_one.
  unfold bind at 1. rewrite (get_collection_connected w Hc).
  unfold update_one, method, try_except, bind, lift, gets, emit, modify, ret.
  destruct (ObjectId_of_str movie_id) as [oid|e]; simpl.
  - pose proof (server_update_one_changes (by_id oid)
                  {[ "plot_embedding" := VVector embedding ]} (server w)) as Hch.
    destruct (server_update_one (by_id oid) _ (server w)) as [r docs'].
    simpl in *. destruct Hch as [[-> ->] | [-> Hne]].
    + by rewrite bool_decide_eq_false_2 by (intros Hn; by apply Hn).
    + by rewrite bool_decide_eq_true_2.
  - by rewrite set_server_same.
Qed.

(** A first call on a closed connection that opens behaves as the call on
    the open connection. *)
Lemma update_movie_embedding_connects w movie_id embedding :
  collection w = false -> mongo_connect E = Connected ->
  update_movie_embedding E movie_id embedding w =
  update_movie_embedding E movie_id embedding (set_collection true w).
Proof.
  intros Hc Hconn. unfold update_movie_embedding.
  unfold bind at 1. rewrite (get_collection_run w), Hc, Hconn.
  symmetry. unfold bind at 1.
  by rewrite (get_collection_run (set_collection true w)).
Qed.

(** Without a collection the update is refused inside the [try]: False. *)
Lemma update_movie_embedding_no_collection w movie_id embedding :
  collection w = false -> mongo_connect E = ConnectionFailure ->
  update_movie_embedding E movie_id embedding w =
    (Ok false, add_event (EvPersist movie_id embedding false) w).
Proof.
  intros Hc Hconn. unfold update_movie_embedding. unfold bind at 1.
  by rewrite (get_collection_run w), Hc, Hconn.
Qed.

(** The one way out by an exception: opening the connection raises
    something other than [ConnectionFailure]. *)
Lemma update_movie_embedding_connect_raises w movie_id embedding e :
  collection w = false -> mongo_connect E = ConnectRaises e ->
  update_movie_embedding E movie_id embedding w = (Raise e, w).
Proof.
  intros Hc Hconn. unfold update_movie_embedding. unfold bind at 1.
  by rewrite (get_collection_run w), Hc, Hconn.
Qed.

(** With the connection open, [get_movie] has three outcomes, all decided
    by the identifier and the store. *)
Lemma get_movie_connected w movie_id :
  collection w = true ->
  get_movie E movie_id w =
    (match ObjectId_of_str movie_id with
     | Raise e => Raise (HTTPException 500 (TextStr "Error fetching movie: " e))
     | Ok oid =>
         let movie := server_find_one (by_id oid) (server w) in
         if not_movie movie then
           Raise (HTTPException 500
                    (TextStr "Error fetching movie: "
                       (HTTPException 404 (Text "Movie not found"))))
         else
           match getitem (default ∅ movie) "_id" with
           | Ok id => Ok (<["_id" := VStr (py_str E id)]> (default ∅ movie))
           | Raise e => Raise (HTTPException 500 (TextStr "Error fetching movie: " e))
           end
     end, w).
Proof.
  intros Hc. unfold get_movie, try_except.
  unfold bind at 1. rewrite (get_collection_connected w Hc).
  unfold find_one, method, bind, lift, gets, raise, ret.
  destruct (ObjectId_of_str movie_id) as [oid|e]; simpl; [|done].
  destruct (not_movie (server_find_one (by_id oid) (server w))); [done|].
  by destruct (getitem _ "_id").
Qed.

(** *** Retrieval *)

(** With the connection open, [vector_search] sends one pipeline and hands
    back the rows of the index, in the order of the index. *)
Lemma vector_search_connected w query_embedding limit :
  collection w = true ->
  vector_search E query_embedding limit w =
    (match vector_index E (search_stage E query_embedding limit) (server w) with
     | Ok found => Ok (map (result_of_row E) found)
     | Raise e => Raise e
     end,
     add_event (EvAggregate (sent_pipeline E query_embedding limit)) w).
Proof.
  intros Hc. unfold vector_search.
  unfold bind at 1. rewrite (get_collection_connected w Hc).
  unfold aggregate, method, bind, emit, modify, gets, lift, ret.
  cbn [run_stages server add_event].
  destruct (vector_index E _ (server w)) as [found|e]; [|done].
  rewrite !map_map. done.
Qed.

(** [get_embedding] always returns, and touches neither the store nor the
    connection. *)
Lemma get_embedding_returns text w :
  exists v w1,
    get_embedding E text w = (Ok v, w1) /\
    server w1 = server w /\ collection w1 = collection w.
Proof.
  rewrite get_embedding_unfold.
  pose proof (after_lazy_load_server w) as Hs.
  pose proof (after_lazy_load_collection w) as Hc.
  destruct (negb (truthy text) || negb (is_str text)); [by eexists _, _|].
  unfold try_except, encode, bind, gets, raise, ret.
  destruct (model (after_lazy_load E w)); [|by eexists _, _].
  destruct text; try by eexists _, _.
  unfold emit, modify, lift. by destruct (model_encode E s); eexists _, _.
Qed.

Lemma traverse_map_Forall2 {A B C} (f : B -> result C) (g : A -> B) xs ys :
  traverse f (map g xs) = Ok ys <-> Forall2 (fun x y => f (g x) = Ok y) xs ys.
Proof.
  revert ys. induction xs as [|x xs IH]; intros ys; simpl.
  - split; [intros [= <-]; constructor | by inversion 1].
  - unfold result_bind at 1. destruct (f (g x)) as [y|e] eqn:Hy.
    + unfold result_bind. destruct (traverse f (map g xs)) as [ys'|e] eqn:Hys.
      * split.
        -- intros [= <-]. constructor; [done|]. by apply IH.
        -- inversion 1 as [|? y' ? ys'' Hy' Hrest]; subst.
           apply IH in Hrest. congruence.
      * split; [done|]. inversion 1 as [|? y' ? ys'' Hy' Hrest]; subst.
        apply IH in Hrest. congruence.
    + split; [done|]. inversion 1; congruence.
Qed.

Lemma traverse_length {A B} (f : A -> result B) xs ys :
  traverse f xs = Ok ys -> List.length ys = List.length xs.
Proof.
  revert ys. induction xs as [|x xs IH]; intros ys; simpl.
  - by intros [= <-].
  - unfold result_bind. destruct (f x); [|done].
    destruct (traverse f xs) as [ys'|]; [|done].
    intros [= <-]. simpl. by rewrite (IH ys').
Qed.

(** With the connection open, [semantic_search] is decided by the index and
    by the validation of its rows. *)
Lemma semantic_search_connected w request :
  collection w = true ->
  exists emb w1,
    get_embedding E (VStr (SearchRequest.query request)) w = (Ok emb, w1) /\
    semantic_search E request w =
      (match vector_index E (search_stage E emb (SearchRequest.limit request)) (server w) with
       | Ok found =>
           match traverse (SearchResult_init E) (map (result_of_row E) found) with
           | Ok search_results =>
               Ok (SearchResponse.mk (SearchRequest.query request) search_results
                     (Z.of_nat (List.length search_results)))
           | Raise e => Raise (HTTPException 500 (TextStr "Search error: " e))
           end
       | Raise e => Raise (HTTPException 500 (TextStr "Search error: " e))
       end,
       add_event (EvAggregate (sent_pipeline E emb (SearchRequest.limit request))) w1).
Proof.
  intros Hc.
  destruct (get_embedding_returns (VStr (SearchRequest.query request)) w)
    as (emb & w1 & Hemb & Hs & Hc1).
  exists emb, w1. split; [done|].
  unfold semantic_search, try_except.
  unfold bind at 1. rewrite Hemb.
  unfold bind at 1. rewrite vector_search_connected by congruence. rewrite Hs.
  destruct (vector_index E _ (server w)) as [found|e]; [|done].
  unfold bind, lift, raise, ret.
  by destruct (traverse (SearchResult_init E) (map (result_of_row E) found)).
Qed.

(** *** The backfill filter *)

Lemma eval_op_exists arg fv :
  eval_op "$exists" arg fv = Bool.eqb (truthy arg) (bool_decide (is_Some fv)).
Proof. reflexivity. Qed.

Lemma eval_op_ne arg fv : eval_op "$ne" arg fv = negb (eq_match fv arg).
Proof. reflexivity. Qed.

(** [{"$exists": False}] *)
Lemma eval_cond_absent fv :
  eval_cond (COps (<["$exists" := VBool false]> ∅)) fv = true <-> fv = None.
Proof.
  unfold eval_cond. rewrite bool_decide_eq_true.
  rewrite map_Forall_insert by apply lookup_empty.
  rewrite eval_op_exists. simpl. split.
  - intros [H _]. destruct fv; [|done].
    by rewrite bool_decide_eq_true_2 in H by eauto.
  - intros ->. split; [|apply map_Forall_empty].
    by rewrite bool_decide_eq_false_2 by (by intros [? ?]).
Qed.

(** [{"$exists": True, "$ne": None, "$ne": ""}]: the dict keeps one ["$ne"],
    the last, so the test against null is not part of the filter. *)
Lemma eval_cond_plot fv :
  eval_cond (COps (<["$ne" := VStr ""]>
                     (<["$ne" := VNull]> (<["$exists" := VBool true]> ∅)))) fv = true
  <-> is_Some fv /\ eq_match fv (VStr "") = false.
Proof.
  unfold eval_cond. rewrite bool_decide_eq_true.
  rewrite insert_insert_eq.
  rewrite map_Forall_insert by (by rewrite lookup_insert_ne, lookup_empty).
  rewrite map_Forall_insert by apply lookup_empty.
  rewrite eval_op_exists, eval_op_ne. simpl. split.
  - intros (Hne & Hex & _). split.
    + destruct fv; [by eauto|]. by rewrite bool_decide_eq_false_2 in Hex by (by intros [? ?]).
    + by apply negb_true_iff.
  - intros [Hsome Hne]. split; [by apply negb_true_iff|].
    split; [|apply map_Forall_empty]. by rewrite bool_decide_eq_true_2.
Qed.

(** What the filter of the backfill accepts. *)
Lemma matches_backfill_query d :
  matches backfill_query d = true <->
  is_Some (d !! "plot") /\ eq_match (d !! "plot") (VStr "") = false /\
  d !! "plot_embedding" = None.
Proof.
  unfold matches, backfill_query. rewrite bool_decide_eq_true.
  rewrite map_Forall_insert by (by rewrite lookup_insert_ne, lookup_empty).
  rewrite map_Forall_insert by apply lookup_empty.
  rewrite eval_cond_absent, eval_cond_plot.
  split.
  - intros (Habsent & Hplot & _). by destruct Hplot.
  - intros (Hsome & Hne & Habsent). split; [done|]. split; [done|].
    apply map_Forall_empty.
Qed.

Lemma matches_backfill_lacks d :
  matches backfill_query d = true -> lacks_embedding d = true.
Proof.
  intros H. apply matches_backfill_query in H as (_ & _ & Hnone).
  unfold lacks_embedding. rewrite Hnone.
  by rewrite bool_decide_eq_false_2 by (by intros [? ?]).
Qed.

(** *** Backfill: the set of documents lacking a vector never grows *)

Lemma set_embedding_not_lacking v (d : Document) :
  lacks_embedding ({[ "plot_embedding" := VVector v ]} ∪ d) = false.
Proof.
  unfold lacks_embedding.
  rewrite <- insert_union_singleton_l, lookup_insert_eq.
  by rewrite bool_decide_eq_true_2 by eauto.
Qed.

Lemma server_update_one_unembedded q v docs :
  unembedded (snd (server_update_one q {[ "plot_embedding" := VVector v ]} docs))
  <= unembedded docs.
Proof.
  unfold unembedded. induction docs as [|d docs IH]; simpl; [lia|].
  destruct (matches q d).
  - case_bool_decide; simpl; [lia|].
    rewrite set_embedding_not_lacking. destruct (lacks_embedding d); simpl; lia.
  - destruct (server_update_one q _ docs) as [r docs']. simpl in *.
    destruct (lacks_embedding d); simpl; lia.
Qed.

Ltac keeps_step :=
  first [ apply (keeps_ret no_more_unembedded) | apply (keeps_raise no_more_unembedded) | apply (keeps_lift no_more_unembedded) | apply (keeps_gets no_more_unembedded)
        | apply (keeps_method no_more_unembedded) | apply (keeps_try_except no_more_unembedded) | apply (keeps_bind no_more_unembedded)
        | apply (keeps_modify no_more_unembedded); intros ?; by apply same_server_no_more
        | intros ? ].

Lemma keeps_connect : keeps no_more_unembedded (connect E).
Proof.
  intros w. unfold connect. destruct (mongo_connect E); by apply same_server_no_more.
Qed.

Lemma keeps_get_collection : keeps no_more_unembedded (get_collection E).
Proof.
  unfold get_collection. apply (keeps_bind no_more_unembedded); [apply (keeps_gets no_more_unembedded)|]. intros c.
  apply (keeps_bind no_more_unembedded).
  - destruct c; [apply (keeps_ret no_more_unembedded)|].
    apply (keeps_bind no_more_unembedded); [apply keeps_connect | intros ?; apply (keeps_ret no_more_unembedded)].
  - intros _. repeat keeps_step.
Qed.

Lemma keeps_emit ev : keeps no_more_unembedded (emit ev).
Proof. apply (keeps_modify no_more_unembedded). intros w. by apply same_server_no_more. Qed.

Lemma keeps_find_skip_limit c q skip limit :
  keeps no_more_unembedded (find_skip_limit c q skip limit).
Proof.
  unfold find_skip_limit. apply (keeps_method no_more_unembedded). apply (keeps_bind no_more_unembedded).
  - destruct skip as [s|]; [|apply (keeps_raise no_more_unembedded)]. destruct (s <? 0); repeat keeps_step.
  - intros s. apply (keeps_bind no_more_unembedded).
    + destruct limit; repeat keeps_step.
    + repeat keeps_step.
Qed.

Lemma keeps_load_model : keeps no_more_unembedded (load_model E).
Proof.
  unfold load_model. apply (keeps_try_except no_more_unembedded); [|intros ?; apply (keeps_ret no_more_unembedded)].
  apply (keeps_bind no_more_unembedded); [apply keeps_emit|]. intros _.
  apply (keeps_bind no_more_unembedded); [|intros ?; apply (keeps_ret no_more_unembedded)].
  destruct (transformer_loads E); repeat keeps_step.
Qed.

Lemma keeps_get_embeddings texts : keeps no_more_unembedded (get_embeddings E texts).
Proof.
  unfold get_embeddings. apply (keeps_bind no_more_unembedded); [apply (keeps_gets no_more_unembedded)|]. intros m.
  apply (keeps_bind no_more_unembedded).
  - destruct m; [apply (keeps_ret no_more_unembedded)|].
    apply (keeps_bind no_more_unembedded); [apply keeps_load_model | intros ?; apply (keeps_ret no_more_unembedded)].
  - intros _. destruct texts; [apply (keeps_ret no_more_unembedded)|].
    apply (keeps_try_except no_more_unembedded); [|intros ?; apply (keeps_ret no_more_unembedded)].
    unfold encode_batch. apply (keeps_bind no_more_unembedded); [apply (keeps_gets no_more_unembedded)|]. intros m'.
    destruct m'; [|apply (keeps_raise no_more_unembedded)].
    apply (keeps_bind no_more_unembedded); [apply keeps_emit | intros ?; apply (keeps_lift no_more_unembedded)].
Qed.

Lemma keeps_update_movie_embedding movie_id embedding :
  keeps no_more_unembedded (update_movie_embedding E movie_id embedding).
Proof.
  unfold update_movie_embedding.
  apply (keeps_bind no_more_unembedded); [apply keeps_get_collection|]. intros c.
  apply (keeps_bind no_more_unembedded).
  - apply (keeps_try_except no_more_unembedded); [|intros ?; apply (keeps_ret no_more_unembedded)].
    apply (keeps_bind no_more_unembedded); [|intros ?; apply (keeps_ret no_more_unembedded)].
    unfold update_one. apply (keeps_method no_more_unembedded).
    apply (keeps_bind no_more_unembedded); [repeat keeps_step|]. intros q.
    intros w. unfold bind, gets.
    pose proof (server_update_one_unembedded q embedding (server w)) as Hle.
    destruct (server_update_one q _ (server w)) as [r docs']. simpl in *. exact Hle.
  - intros ok. apply (keeps_bind no_more_unembedded); [apply keeps_emit | intros ?; apply (keeps_ret no_more_unembedded)].
Qed.

Lemma keeps_persist_loop pairs updated_count :
  keeps no_more_unembedded (persist_loop E pairs updated_count).
Proof.
  revert updated_count. induction pairs as [|[movie_id embedding] pairs IH];
    intros updated_count; simpl.
  - apply (keeps_ret no_more_unembedded).
  - apply (keeps_bind no_more_unembedded); [apply keeps_update_movie_embedding|]. intros ok. apply IH.
Qed.

Lemma keeps_generate_embeddings request :
  keeps no_more_unembedded (generate_embeddings E request).
Proof.
  unfold generate_embeddings.
  apply (keeps_try_except no_more_unembedded); [|intros ?; apply (keeps_raise no_more_unembedded)].
  apply (keeps_bind no_more_unembedded); [apply keeps_get_collection|]. intros c.
  apply (keeps_bind no_more_unembedded); [apply keeps_find_skip_limit|]. intros movies.
  destruct movies as [|movie movies]; [apply (keeps_ret no_more_unembedded)|].
  apply (keeps_bind no_more_unembedded); [apply (keeps_lift no_more_unembedded)|]. intros movie_ids.
  apply (keeps_bind no_more_unembedded); [apply keeps_get_embeddings|]. intros embeddings.
  apply (keeps_bind no_more_unembedded); [apply keeps_persist_loop | intros ?; apply (keeps_ret no_more_unembedded)].
Qed.

(** *** Backfill: what a run selects and how much it can count *)

Lemma get_collection_server r w w0 :
  get_collection E w = (r, w0) -> server w0 = server w.
Proof.
  unfold get_collection, bind, gets, ret, connect.
  destruct (collection w) eqn:Hc; simpl.
  - rewrite Hc. by intros [= _ <-].
  - destruct (mongo_connect E); simpl; rewrite ?Hc; by intros [= _ <-].
Qed.

Lemma find_skip_limit_ok c q skip limit w movies w' :
  find_skip_limit c q skip limit w = (Ok movies, w') ->
  w' = w /\ exists s l, skip = Some s /\ limit = Some l /\ 0 <= s /\
                        movies = server_find q s l (server w).
Proof.
  unfold find_skip_limit, method, bind, gets, raise, ret.
  destruct c; [|done]. destruct skip as [s|]; [|done].
  destruct (s <? 0) eqn:Hs; [done|]. destruct limit as [l|]; [|done].
  intros [= <- <-]. split; [done|]. exists s, l. repeat split. lia.
Qed.

Lemma persist_loop_bound pairs updated_count w n w' :
  persist_loop E pairs updated_count w = (Ok n, w') ->
  updated_count <= n <= updated_count + Z.of_nat (List.length pairs).
Proof.
  revert updated_count w. induction pairs as [|[movie_id embedding] pairs IH];
    intros updated_count w; simpl.
  - intros [= <- <-]. lia.
  - intros H. apply bind_inv in H as [(ok & w1 & _ & H) | (e & _ & ?)]; [|done].
    apply IH in H. destruct ok; lia.
Qed.

Lemma apply_skip_limit_length skip limit (docs : list Document) :
  (List.length (apply_skip_limit skip limit docs) <= List.length docs)%nat.
Proof.
  unfold apply_skip_limit. destruct (limit =? 0).
  - rewrite length_drop. lia.
  - rewrite length_take, length_drop. lia.
Qed.

Lemma filter_backfill_le_unembedded docs :
  (List.length (List.filter (matches backfill_query) docs)
   <= List.length (List.filter lacks_embedding docs))%nat.
Proof.
  induction docs as [|d docs IH]; simpl; [lia|].
  destruct (matches backfill_query d) eqn:Hm.
  - rewrite (matches_backfill_lacks d Hm). simpl. lia.
  - destruct (lacks_embedding d); simpl; lia.
Qed.

Lemma server_find_le_unembedded skip limit docs :
  Z.of_nat (List.length (server_find backfill_query skip limit docs)) <= unembedded docs.
Proof.
  unfold server_find, unembedded.
  pose proof (apply_skip_limit_length skip limit
                (List.filter (matches backfill_query) docs)).
  pose proof (filter_backfill_le_unembedded docs). lia.
Qed.

(** A selection holds only documents without a vector. *)
Lemma server_find_lacking skip limit docs :
  Forall (fun d => d !! "plot_embedding" = None)
    (server_find backfill_query skip limit docs).
Proof.
  unfold server_find, apply_skip_limit.
  assert (Hall : Forall (fun d : Document => d !! "plot_embedding" = None)
                   (List.filter (matches backfill_query) docs)).
  { apply List.Forall_forall. intros d Hd. apply filter_In in Hd as [_ Hm].
    by apply matches_backfill_query in Hm as (_ & _ & ?). }
  destruct (limit =? 0); [by apply Forall_drop|]. by apply Forall_take, Forall_drop.
Qed.

(** The count a run reports is bounded by what its store has left to embed. *)
Lemma generate_embeddings_processed_le request w response w' :
  generate_embeddings E request w = (Ok response, w') ->
  0 <= EmbeddingGenerationResponse.processed response <= unembedded (server w).
Proof.
  unfold generate_embeddings, try_except. intros H.
  match type of H with
  | context [match ?body with _ => _ end] => destruct body as [[r0|e] w0] eqn:Hb
  end; [|done].
  injection H as -> ->.
  apply bind_inv in Hb as [(c & w0 & Hgc & Hb) | (e & _ & ?)]; [|done].
  apply get_collection_server in Hgc.
  apply bind_inv in Hb as [(movies & w1 & Hfind & Hb) | (e & _ & ?)]; [|done].
  apply find_skip_limit_ok in Hfind as (-> & s & l & _ & _ & _ & Hmovies).
  pose proof (server_find_le_unembedded s l (server w0)) as Hsel.
  rewrite <- Hmovies, Hgc in Hsel.
  assert (0 <= unembedded (server w)) by (unfold unembedded; lia).
  destruct movies as [|movie movies].
  { injection Hb as <- _. simpl. lia. }
  apply bind_inv in Hb as [(ids & w2 & Hids & Hb) | (e & _ & ?)]; [|done].
  unfold lift in Hids.
  destruct (traverse _ (movie :: movies)) as [ids'|] eqn:Htr; [|done].
  injection Hids as -> ->. apply traverse_length in Htr.
  apply bind_inv in Hb as [(embs & w3 & _ & Hb) | (e & _ & ?)]; [|done].
  apply bind_inv in Hb as [(n & w4 & Hloop & Hb) | (e & _ & ?)]; [|done].
  injection Hb as <- _. simpl.
  apply persist_loop_bound in Hloop.
  rewrite length_zip in Hloop. lia.
Qed.

(** *** Backfill: the persistence loop *)

(** [get_embeddings] always returns, and touches neither the store nor the
    connection. *)
Lemma get_embeddings_returns texts w :
  exists embeddings w1,
    get_embeddings E texts w = (Ok embeddings, w1) /\
    server w1 = server w /\ collection w1 = collection w.
Proof.
  rewrite get_embeddings_unfold.
  pose proof (after_lazy_load_server w) as Hs.
  pose proof (after_lazy_load_collection w) as Hc.
  destruct texts as [|text texts]; [by eexists _, _|].
  unfold try_except, encode_batch, bind, gets, raise, ret.
  destruct (model (after_lazy_load E w)); [|by eexists _, _].
  unfold emit, modify, lift.
  by destruct (model_encode_batch E (text :: texts)); eexists _, _.
Qed.

Lemma traverse_ids movies :
  Forall (fun d : Document => is_Some (d !! "_id")) movies ->
  traverse (fun movie => let? id := getitem movie "_id" in Ok (py_str E id)) movies
  = Ok (ids_of E movies).
Proof.
  induction 1 as [|d movies [v Hv] _ IH]; [done|].
  cbn [traverse]. rewrite IH. unfold getitem, ids_of. cbn [map]. by rewrite Hv.
Qed.

Lemma successes_cons ok oks :
  successes (ok :: oks) = (if ok then 1 else 0) + successes oks.
Proof. unfold successes. destruct ok; simpl; lia. Qed.

(** With the connection open, the loop performs the [persist_all] steps in
    list order, records each of them, and counts those that changed the
    collection. *)
Lemma persist_loop_connected pairs updated_count w :
  collection w = true ->
  persist_loop E pairs updated_count w =
    (Ok (updated_count + successes (fst (persist_all pairs (server w)))),
     mkWorld (snd (persist_all pairs (server w))) true (model w)
       (trace w ++ persist_events pairs (fst (persist_all pairs (server w))))).
Proof.
  revert updated_count w. induction pairs as [|[movie_id embedding] pairs IH];
    intros updated_count w Hc.
  - simpl. unfold ret, successes. simpl. rewrite app_nil_r, Z.add_0_r.
    destruct w. simpl in *. by subst.
  - cbn [persist_loop persist_all]. unfold bind at 1.
    rewrite (update_movie_embedding_connected w movie_id embedding Hc).
    destruct (persist_one movie_id embedding (server w)) as [ok docs1]. cbn [fst snd].
    rewrite IH by done. cbn [server add_event set_server model trace].
    destruct (persist_all pairs docs1) as [oks docs2]. cbn [fst snd].
    rewrite successes_cons. unfold persist_events. cbn [zip_with fst snd].
    rewrite <- app_assoc. cbn [app]. f_equal. f_equal. destruct ok; lia.
Qed.

(** A backfill over a connected store with a non-empty selection whose
    documents carry an [_id]. *)
Lemma generate_embeddings_connected request s l w embeddings w1 :
  collection w = true ->
  EmbeddingGenerationRequest.skip request = Some s -> 0 <= s ->
  EmbeddingGenerationRequest.limit request = Some l ->
  let movies := server_find backfill_query s l (server w) in
  movies <> [] ->
  Forall (fun d : Document => is_Some (d !! "_id")) movies ->
  get_embeddings E (plots_of movies) w = (Ok embeddings, w1) ->
  server w1 = server w -> collection w1 = true ->
  let pairs := zip (ids_of E movies) embeddings in
  let run := persist_all pairs (server w) in
  generate_embeddings E request w =
    (Ok (EmbeddingGenerationResponse.mk true (successes (fst run))
           ("Successfully generated embeddings for " +:+ pretty (successes (fst run))
            +:+ " movies")),
     mkWorld (snd run) true (model w1) (trace w1 ++ persist_events pairs (fst run))).
Proof.
  intros Hc Hskip Hs Hlimit movies Hne Hids Hemb Hs1 Hc1. cbv zeta.
  unfold generate_embeddings, try_except.
  unfold bind at 1. rewrite (get_collection_connected w Hc).
  unfold bind at 1. unfold find_skip_limit, method. rewrite Hskip, Hlimit.
  unfold bind at 1. destruct (s <? 0) eqn:Hneg; [lia|]. unfold ret at 1.
  unfold bind at 1. unfold ret at 1. unfold bind at 1, gets. unfold ret at 1.
  fold movies. destruct movies as [|movie rest] eqn:Hmovies; [done|].
  rewrite <- Hmovies in *.
  unfold bind at 1. unfold lift. rewrite (traverse_ids movies Hids).
  unfold bind at 1. fold (plots_of movies). rewrite Hemb.
  unfold bind at 1. rewrite (persist_loop_connected _ 0 w1 Hc1). rewrite Hs1.
  unfold ret. by rewrite Z.add_0_l.
Qed.

Lemma server_find_Forall (P : Document -> Prop) q skip limit docs :
  Forall P docs -> Forall P (server_find q skip limit docs).
Proof.
  intros Hall. unfold server_find, apply_skip_limit.
  assert (Hsel : Forall P (List.filter (matches q) docs)).
  { apply List.Forall_forall. intros d Hd. apply filter_In in Hd as [Hd _].
    revert d Hd. by apply List.Forall_forall. }
  destruct (limit =? 0); [by apply Forall_drop|]. by apply Forall_take, Forall_drop.
Qed.

(** A backfill over a connected store whose documents all carry an [_id],
    asked for an integer window, returns a response. *)
Lemma generate_embeddings_returns request s l w :
  collection w = true ->
  EmbeddingGenerationRequest.skip request = Some s -> 0 <= s ->
  EmbeddingGenerationRequest.limit request = Some l ->
  Forall (fun d : Document => is_Some (d !! "_id")) (server w) ->
  exists response w', generate_embeddings E request w = (Ok response, w').
Proof.
  intros Hc Hskip Hs Hlimit Hids.
  destruct (server_find backfill_query s l (server w)) as [|movie rest] eqn:Hsel.
  - eexists _, _. unfold generate_embeddings, try_except.
    unfold bind at 1. rewrite (get_collection_connected w Hc).
    unfold bind at 1. unfold find_skip_limit, method. rewrite Hskip, Hlimit.
    unfold bind at 1. destruct (s <? 0) eqn:Hneg; [lia|]. unfold ret at 1.
    unfold bind at 1. unfold ret at 1. unfold bind at 1, gets. unfold ret at 1.
    rewrite Hsel. reflexivity.
  - destruct (get_embeddings_returns
                (plots_of (server_find backfill_query s l (server w))) w)
      as (embeddings & w1 & Hemb & Hs1 & Hc1).
    eexists _, _.
    apply (generate_embeddings_connected request s l w embeddings w1); try done.
    + by rewrite Hsel.
    + by apply server_find_Forall.
    + congruence.
Qed.

End Facts.

(** ** The properties *)

(** C1. On a connected store, [get_movie] with a well-formed identifier that
    no stored document carries does not end in the 404 it raises: the
    handler's own [except Exception] catches that 404 and replaces it by a
    500 whose message quotes it. *)
Theorem get_movie_absent_is_500 (E : Env) (w : World) (movie_id : string) (oid : ObjectId) :
  collection w = true ->
  ObjectId_of_str movie_id = Ok oid ->
  server_find_one (by_id oid) (server w) = None ->
  get_movie E movie_id w =
    (Raise (HTTPException 500
              (TextStr "Error fetching movie: "
                 (HTTPException 404 (Text "Movie not found")))), w).
Proof.
  intros Hc Hid Habsent. rewrite (get_movie_connected E w movie_id Hc).
  by rewrite Hid; simpl; rewrite Habsent.
Qed.

Lemma get_movie_absent_is_500_witness :
  get_movie sample_env "507f1f77bcf86cd799439013" (world_of [movie_a; movie_b]) =
    (Raise (HTTPException 500
              (TextStr "Error fetching movie: "
                 (HTTPException 404 (Text "Movie not found")))),
     world_of [movie_a; movie_b]).
Proof.
  apply (get_movie_absent_is_500 sample_env (world_of [movie_a; movie_b])
           "507f1f77bcf86cd799439013" oid_c); reflexivity.
Defined.

(** A malformed identifier ends in a 500 as well, quoting [InvalidId]. *)
Lemma get_movie_malformed_is_500 (E : Env) (w : World) (movie_id : string) (e : exn) :
  collection w = true ->
  ObjectId_of_str movie_id = Raise e ->
  get_movie E movie_id w =
    (Raise (HTTPException 500 (TextStr "Error fetching movie: " e)), w).
Proof.
  intros Hc Hid. rewrite (get_movie_connected E w movie_id Hc). by rewrite Hid.
Qed.

(** C7. Whenever the collection can be obtained without an exception (the
    connection is open, or opening it does not raise anything other than
    ConnectionFailure), [update_movie_embedding] returns a boolean for every
    identifier and vector and does not raise; the boolean is false when no
    stored document carries the identifier, and false when the document
    already stores that vector. *)
Theorem update_movie_embedding_false_not_error
    (E : Env) (w : World) (movie_id : string) (embedding : list float) :
  collection w = true \/ (forall e, mongo_connect E <> ConnectRaises e) ->
  exists (b : bool) (w' : World),
    update_movie_embedding E movie_id embedding w = (Ok b, w') /\
    ((forall oid, ObjectId_of_str movie_id = Ok oid ->
                  server_find_one (by_id oid) (server w) = None) -> b = false) /\
    ((exists oid d, ObjectId_of_str movie_id = Ok oid /\
                    server_find_one (by_id oid) (server w) = Some d /\
                    d !! "plot_embedding" = Some (VVector embedding)) -> b = false).
Proof.
  assert (Hopen : forall w0, collection w0 = true -> server w0 = server w ->
    exists (b : bool) (w' : World),
      update_movie_embedding E movie_id embedding w0 = (Ok b, w') /\
      ((forall oid, ObjectId_of_str movie_id = Ok oid ->
                    server_find_one (by_id oid) (server w) = None) -> b = false) /\
      ((exists oid d, ObjectId_of_str movie_id = Ok oid /\
                      server_find_one (by_id oid) (server w) = Some d /\
                      d !! "plot_embedding" = Some (VVector embedding)) -> b = false)).
  { intros w0 Hc Hs. eexists _, _.
    split; [by apply update_movie_embedding_connected|].
    rewrite Hs. unfold persist_one. split.
    - intros Habsent. destruct (ObjectId_of_str movie_id) as [oid|e]; [|done].
      rewrite (server_update_one_absent _ _ _ (Habsent oid eq_refl)). simpl.
      by apply bool_decide_eq_false_2; intros Hn.
    - intros (oid & d & -> & Hfound & Hsame).
      rewrite (server_update_one_same _ _ _ d Hfound (set_field_same _ _ _ Hsame)). simpl.
      by apply bool_decide_eq_false_2; intros Hn. }
  intros Hget. destruct (collection w) eqn:Hc; [by apply Hopen|].
  destruct Hget as [|Hnoraise]; [done|].
  destruct (mongo_connect E) as [| |e] eqn:Hconn.
  - rewrite (update_movie_embedding_connects E w movie_id embedding Hc Hconn).
    by apply Hopen.
  - rewrite (update_movie_embedding_no_collection E w movie_id embedding Hc Hconn).
    by eexists _, _.
  - by destruct (Hnoraise e).
Qed.

Lemma update_movie_embedding_false_not_error_witness :
  (exists w', update_movie_embedding sample_env "507f1f77bcf86cd799439011" sample_vector
                (world_of [movie_c]) = (Ok false, w')) /\
  (exists w', update_movie_embedding sample_env "507f1f77bcf86cd799439013" sample_vector
                (world_of [movie_c]) = (Ok false, w')).
Proof.
  split.
  - destruct (update_movie_embedding_false_not_error sample_env (world_of [movie_c])
                "507f1f77bcf86cd799439011" sample_vector (or_introl eq_refl))
      as (b & w' & Hrun & Habsent & _).
    exists w'. rewrite Hrun. f_equal. f_equal. apply Habsent.
    intros oid [= <-]. reflexivity.
  - destruct (update_movie_embedding_false_not_error sample_env (world_of [movie_c])
                "507f1f77bcf86cd799439013" sample_vector (or_introl eq_refl))
      as (b & w' & Hrun & _ & Hsame).
    exists w'. rewrite Hrun. f_equal. f_equal. apply Hsame.
    exists oid_c, movie_c. split; [reflexivity|]. split; reflexivity.
Defined.

(** C2. The filter of the backfill accepts a document whose plot is present
    but null (and that has no vector): of the two ["$ne"] entries written in
    the dict literal only the last, [""], survives. *)
Theorem backfill_selects_null_plot (d : Document) :
  d !! "plot" = Some VNull ->
  d !! "plot_embedding" = None ->
  matches backfill_query d = true.
Proof.
  intros Hplot Hemb. apply matches_backfill_query.
  rewrite Hplot. split; [by eauto|]. split; reflexivity || done.
Qed.

Lemma backfill_selects_null_plot_witness :
  matches backfill_query movie_b = true.
Proof.
  apply (backfill_selects_null_plot movie_b); reflexivity.
Defined.

(** The handler at that input: the null-plot movie is selected, embedded and
    counted. *)
Example backfill_embeds_null_plot :
  exists w',
    generate_embeddings sample_env
      (EmbeddingGenerationRequest.mk (Some 100) (Some 0)) (world_of [movie_b])
    = (Ok (EmbeddingGenerationResponse.mk true 1
             "Successfully generated embeddings for 1 movies"), w') /\
    trace w' = [EvEncodeBatch [VNull];
                EvPersist "507f1f77bcf86cd799439012" sample_vector true].
Proof. eexists. split; vm_compute; reflexivity. Qed.

(** C3. Two runs of the backfill in succession, nothing else touching the
    store: the second run's processed count is at most the number of
    documents that lack a vector after the first run; the first run has not
    enlarged that number; and whatever window the second run asks for, its
    selection holds no document that has a vector. *)
Theorem backfill_idempotent
    (E : Env) (w : World) (request1 request2 : EmbeddingGenerationRequest.t)
    (outcome1 : result EmbeddingGenerationResponse.t) (w1 : World)
    (response2 : EmbeddingGenerationResponse.t) (w2 : World) :
  generate_embeddings E request1 w = (outcome1, w1) ->
  generate_embeddings E request2 w1 = (Ok response2, w2) ->
  0 <= EmbeddingGenerationResponse.processed response2 <= unembedded (server w1) /\
  unembedded (server w1) <= unembedded (server w) /\
  (forall skip limit,
      Forall (fun d => d !! "plot_embedding" = None)
        (server_find backfill_query skip limit (server w1))).
Proof.
  intros Hrun1 Hrun2. split; [|split].
  - exact (generate_embeddings_processed_le E request2 w1 response2 w2 Hrun2).
  - pose proof (keeps_generate_embeddings E request1 w) as Hkeep.
    by rewrite Hrun1 in Hkeep.
  - intros skip limit. apply server_find_lacking.
Qed.

Lemma backfill_idempotent_witness :
  let w := world_of [movie_a; movie_c] in
  let request := EmbeddingGenerationRequest.mk (Some 100) (Some 0) in
  let w1 :=
    mkWorld [<["plot_embedding" := VVector sample_vector]> movie_a; movie_c] true true
      [EvEncodeBatch [VStr "robots in space"];
       EvPersist "507f1f77bcf86cd799439011" sample_vector true] in
  let response2 :=
    EmbeddingGenerationResponse.mk true 0 "No movies found without embeddings" in
  0 <= EmbeddingGenerationResponse.processed response2 <= unembedded (server w1) /\
  unembedded (server w1) <= unembedded (server w) /\
  (forall skip limit,
      Forall (fun d => d !! "plot_embedding" = None)
        (server_find backfill_query skip limit (server w1))).
Proof.
  intros w request w1 response2.
  apply (backfill_idempotent sample_env w request request
           (Ok (EmbeddingGenerationResponse.mk true 1
                  "Successfully generated embeddings for 1 movies"))
           w1 response2 w1).
  - vm_compute. reflexivity.
  - vm_compute. reflexivity.
Defined.

(** C4. A backfill over a connected store whose selection is not empty
    (each selected document carrying its [_id]) persists the pairs of
    identifier and vector one after the other in selection order, as the
    history records; it reports success, and its processed count is the
    number of those steps that changed the stored collection, however many
    of them did not. *)
Theorem backfill_counts_true_successes
    (E : Env) (w : World) (request : EmbeddingGenerationRequest.t) (s l : Z) :
  collection w = true ->
  EmbeddingGenerationRequest.valid request ->
  EmbeddingGenerationRequest.skip request = Some s ->
  EmbeddingGenerationRequest.limit request = Some l ->
  let movies := server_find backfill_query s l (server w) in
  movies <> [] ->
  Forall (fun d : Document => is_Some (d !! "_id")) movies ->
  exists embeddings w1 response w',
    get_embeddings E (plots_of movies) w = (Ok embeddings, w1) /\
    generate_embeddings E request w = (Ok response, w') /\
    let pairs := zip (ids_of E movies) embeddings in
    let oks := fst (persist_all pairs (server w)) in
    EmbeddingGenerationResponse.success response = true /\
    EmbeddingGenerationResponse.processed response = successes oks /\
    server w' = snd (persist_all pairs (server w)) /\
    trace w' = trace w1 ++ persist_events pairs oks.
Proof.
  intros Hc [_ Hvalid] Hskip Hlimit movies Hne Hids.
  rewrite Hskip in Hvalid.
  destruct (get_embeddings_returns E (plots_of movies) w)
    as (embeddings & w1 & Hemb & Hs1 & Hc1).
  exists embeddings, w1. eexists _, _. split; [exact Hemb|]. split.
  - apply (generate_embeddings_connected E request s l w embeddings w1); try done.
    congruence.
  - repeat split.
Qed.

Lemma backfill_counts_true_successes_witness :
  exists response w',
    generate_embeddings sample_env (EmbeddingGenerationRequest.mk (Some 100) (Some 0))
      (world_of [movie_a; movie_d; movie_c]) = (Ok response, w') /\
    EmbeddingGenerationResponse.success response = true /\
    EmbeddingGenerationResponse.processed response = 1 /\
    trace w' = [EvEncodeBatch [VStr "robots in space"; VStr "a prison"];
                EvPersist "507f1f77bcf86cd799439011" sample_vector true;
                EvPersist "tt0111161" sample_vector false].
Proof.
  assert (Hsel : server_find backfill_query 0 100
                   (server (world_of [movie_a; movie_d; movie_c])) = [movie_a; movie_d])
    by (vm_compute; reflexivity).
  destruct (backfill_counts_true_successes sample_env
              (world_of [movie_a; movie_d; movie_c])
              (EmbeddingGenerationRequest.mk (Some 100) (Some 0)) 0 100)
    as (embeddings & w1 & response & w' & Hemb & Hrun & Hsuccess & Hprocessed & _ & Htrace).
  - reflexivity.
  - split; simpl; lia.
  - reflexivity.
  - reflexivity.
  - rewrite Hsel. discriminate.
  - rewrite Hsel. repeat constructor; eexists; reflexivity.
  - exists response, w'. split; [exact Hrun|]. split; [exact Hsuccess|].
    rewrite Hsel in Hemb, Hprocessed, Htrace.
    vm_compute in Hemb. injection Hemb as <- <-.
    split; [rewrite Hprocessed | rewrite Htrace]; vm_compute; reflexivity.
Defined.

(** The scenario of the specification: a window of two over a store with two
    eligible movies and one without a plot. *)
Example backfill_scenario :
  fst (generate_embeddings sample_env (EmbeddingGenerationRequest.mk (Some 2) (Some 0))
         (world_of [movie_a; {[ "_id" := VObjectId oid_b ]};
                    <["plot" := VStr "a heist"]> {[ "_id" := VObjectId oid_c ]}]))
  = Ok (EmbeddingGenerationResponse.mk true 2
          "Successfully generated embeddings for 2 movies").
Proof. vm_compute. reflexivity. Qed.

(** C5. With the connection open and a caller's limit [L] between 1 and 20,
    [vector_search] sends the store exactly one pipeline, whose vector-search
    stage asks for [L * 10] candidates and a result limit of [L], whatever
    the query vector; a store that honours the limit makes it return at most
    [L] results. *)
Theorem vector_search_overfetch
    (E : Env) (w : World) (query_embedding : list float) (L : Z) :
  1 <= L <= 20 ->
  collection w = true ->
  (forall spec docs found,
      vector_index E spec docs = Ok found ->
      (List.length found <= Z.to_nat (vs_limit spec))%nat) ->
  exists spec fields r w',
    vector_search E query_embedding L w = (r, w') /\
    trace w' = trace w ++ [EvAggregate [VectorSearch spec; Project fields]] /\
    vs_queryVector spec = query_embedding /\
    vs_numCandidates spec = L * 10 /\
    vs_limit spec = L /\
    (forall results, r = Ok results -> Z.of_nat (List.length results) <= L).
Proof.
  intros HL Hc Hlimit.
  exists (search_stage E query_embedding L), projected_fields. eexists _, _.
  split; [by apply vector_search_connected|].
  repeat split.
  intros results Hres.
  destruct (vector_index E (search_stage E query_embedding L) (server w))
    as [found|e] eqn:Hfound; [|done].
  injection Hres as <-. rewrite length_map.
  pose proof (Hlimit _ _ _ Hfound) as Hlen. simpl in Hlen. lia.
Qed.

Lemma sample_env_honours_limit :
  forall spec docs found,
    vector_index sample_env spec docs = Ok found ->
    (List.length found <= Z.to_nat (vs_limit spec))%nat.
Proof.
  intros spec docs found [= <-]. rewrite length_take. lia.
Qed.

Lemma vector_search_overfetch_witness :
  exists spec fields r w',
    vector_search sample_env sample_vector 3 (world_of [movie_c]) = (r, w') /\
    trace w' = [] ++ [EvAggregate [VectorSearch spec; Project fields]] /\
    vs_queryVector spec = sample_vector /\
    vs_numCandidates spec = 3 * 10 /\
    vs_limit spec = 3 /\
    (forall results, r = Ok results -> Z.of_nat (List.length results) <= 3).
Proof.
  apply (vector_search_overfetch sample_env (world_of [movie_c]) sample_vector 3).
  - lia.
  - reflexivity.
  - exact sample_env_honours_limit.
Defined.

(** C8. With the connection open and a valid request, [semantic_search]
    returns a response exactly when the vector index answers and each of its
    rows validates; that response echoes the query text, lists the validated
    rows position by position in the order the index returned them, and its
    count is the length of that list. *)
Theorem semantic_search_response
    (E : Env) (w : World) (request : SearchRequest.t)
    (response : SearchResponse.t) (w' : World) :
  SearchRequest.valid request ->
  collection w = true ->
  semantic_search E request w = (Ok response, w') <->
  exists emb w1 found,
    get_embedding E (VStr (SearchRequest.query request)) w = (Ok emb, w1) /\
    vector_index E (search_stage E emb (SearchRequest.limit request)) (server w) = Ok found /\
    Forall2 (fun row sr => SearchResult_init E (result_of_row E row) = Ok sr)
      found (SearchResponse.results response) /\
    SearchResponse.query response = SearchRequest.query request /\
    SearchResponse.count response = Z.of_nat (List.length (SearchResponse.results response)) /\
    w' = add_event (EvAggregate (sent_pipeline E emb (SearchRequest.limit request))) w1.
Proof.
  intros _ Hc.
  destruct (semantic_search_connected E w request Hc) as (emb & w1 & Hemb & Hrun).
  rewrite Hrun. split.
  - intros Hok. exists emb, w1.
    destruct (vector_index E _ (server w)) as [found|e]; [|done].
    exists found.
    destruct (traverse (SearchResult_init E) (map (result_of_row E) found))
      as [srs|e] eqn:Hval; [|done].
    injection Hok as <- <-. simpl.
    repeat split; [done|]. by apply traverse_map_Forall2.
  - intros (emb' & w1' & found & Hemb' & Hfound & Hrows & Hq & Hn & ->).
    rewrite Hemb in Hemb'. injection Hemb' as <- <-.
    rewrite Hfound. apply traverse_map_Forall2 in Hrows. rewrite Hrows.
    destruct response as [q rs n]. simpl in *. by subst.
Qed.

Lemma semantic_search_response_witness :
  exists response w',
    semantic_search sample_env (SearchRequest.mk "a heist" 3) (world_of [movie_c; movie_a])
      = (Ok response, w') /\
    SearchResponse.query response = "a heist" /\
    SearchResponse.count response = Z.of_nat (List.length (SearchResponse.results response)) /\
    map SearchResult.title (SearchResponse.results response) = ["C"; "A"].
Proof.
  assert (Hvalid : SearchRequest.valid (SearchRequest.mk "a heist" 3)).
  { split; simpl; lia. }
  destruct (semantic_search sample_env (SearchRequest.mk "a heist" 3)
              (world_of [movie_c; movie_a])) as [[response|e] w'] eqn:Hrun.
  - exists response, w'. split; [reflexivity|].
    destruct (proj1 (semantic_search_response sample_env (world_of [movie_c; movie_a])
                       (SearchRequest.mk "a heist" 3) response w' Hvalid eq_refl) Hrun)
      as (emb & w1 & found & _ & _ & _ & Hq & Hn & _).
    split; [exact Hq|]. split; [exact Hn|].
    vm_compute in Hrun. injection Hrun as <- _. reflexivity.
  - vm_compute in Hrun. discriminate Hrun.
Defined.

(** C9. With an open connection [embedding_stats] always returns, for every
    store: its total is the number of stored documents; when that total is
    zero the completion percentage is the integer 0 and no quotient is
    formed; the quotient is formed only when the total is positive. *)
Theorem embedding_stats_total_zero (E : Env) (w : World) :
  collection w = true ->
  exists st,
    embedding_stats E w = (Ok st, w) /\
    Stats.total_movies st = Z.of_nat (List.length (server w)) /\
    (Stats.total_movies st = 0 -> Stats.completion_percentage st = VInt 0) /\
    (0 < Stats.total_movies st ->
     Stats.completion_percentage st =
       VFloat (float_round E
                 (int_truediv E (Stats.with_embeddings st) (Stats.total_movies st) * 100)%float
                 2)).
Proof.
  intros Hc. eexists. split; [by apply embedding_stats_connected|].
  simpl. split; [apply server_count_all|]. unfold completion_of. split.
  - intros Hz. by rewrite Hz.
  - intros Hpos. by rewrite (proj2 (Z.ltb_lt _ _) Hpos).
Qed.

Lemma embedding_stats_total_zero_witness :
  exists st,
    embedding_stats sample_env (world_of []) = (Ok st, world_of []) /\
    Stats.total_movies st = 0 /\ Stats.completion_percentage st = VInt 0.
Proof.
  destruct (embedding_stats_total_zero sample_env (world_of []) eq_refl)
    as (st & Hrun & Htotal & Hzero & _).
  exists st. split; [exact Hrun|]. split; [exact Htotal|]. exact (Hzero Htotal).
Defined.

(** C10. [get_embeddings] on the empty list returns the empty list; the only
    call it may make is the lazy model load, never [encode]. *)
Theorem get_embeddings_empty (E : Env) (w : World) :
  exists w',
    get_embeddings E [] w = (Ok [], w') /\
    trace w' = trace w ++ (if model w then [] else [EvLoadModel]).
Proof.
  exists (after_lazy_load E w). split.
  - by rewrite get_embeddings_unfold.
  - apply after_lazy_load_trace.
Qed.

(** C6. On an empty string, on a value that is not a string, and on a text
    the model errors on, [get_embedding] returns (and does not raise) a
    vector of the configured dimension whose components are all zero. *)
Theorem get_embedding_fails_soft (E : Env) (w : World) (text : value) :
  0 <= VECTOR_DIMENSION (settings E) ->
  text = VStr "" \/ is_str text = false \/ model_errors_on E w text ->
  exists v w',
    get_embedding E text w = (Ok v, w') /\
    Z.of_nat (List.length v) = VECTOR_DIMENSION (settings E) /\
    Forall (fun x => x = 0%float) v.
Proof.
  intros Hdim Hcase. exists (zero_vector E).
  cut (exists w', get_embedding E text w = (Ok (zero_vector E), w')).
  { intros [w' Hw']. exists w'. split; [done|].
    split; [by apply zero_vector_length | apply zero_vector_zeros]. }
  rewrite get_embedding_unfold.
  destruct Hcase as [-> | [Hns | (s & -> & Herr)]].
  - by eexists.
  - rewrite Hns, orb_true_r. by eexists.
  - destruct (negb (truthy (VStr s)) || negb (is_str (VStr s))); [by eexists|].
    unfold try_except, encode, bind, gets.
    destruct (model (after_lazy_load E w)) eqn:Hm.
    + destruct Herr as [[e He] | [Hm0 Hl]].
      * unfold emit, modify, lift. rewrite He. by eexists.
      * rewrite after_lazy_load_model, Hm0, Hl in Hm. done.
    + by eexists.
Qed.

Lemma get_embedding_fails_soft_witness :
  (exists v w', get_embedding sample_env (VStr "") (world_of []) = (Ok v, w') /\
     Z.of_nat (List.length v) = 3 /\ Forall (fun x => x = 0%float) v) /\
  (exists v w', get_embedding sample_env (VInt 7) (world_of []) = (Ok v, w') /\
     Z.of_nat (List.length v) = 3 /\ Forall (fun x => x = 0%float) v) /\
  (exists v w', get_embedding failing_model_env (VStr "robots") (world_of []) = (Ok v, w') /\
     Z.of_nat (List.length v) = 3 /\ Forall (fun x => x = 0%float) v).
Proof.
  split; [|split].
  - apply (get_embedding_fails_soft sample_env (world_of []) (VStr "")); [simpl; lia|].
    left. reflexivity.
  - apply (get_embedding_fails_soft sample_env (world_of []) (VInt 7)); [simpl; lia|].
    right. left. reflexivity.
  - apply (get_embedding_fails_soft failing_model_env (world_of []) (VStr "robots"));
      [simpl; lia|].
    right. right. exists "robots". split; [reflexivity|].
    left. exists (ModelError "encode"). reflexivity.
Defined.

(** ** Further properties *)

#[global] Instance same_server_preorder : PreOrder same_server.
Proof.
  split.
  - intros w. reflexivity.
  - intros a b c Hab Hbc. unfold same_server in *. congruence.
Qed.

(** Rules for the computations that only read the store. *)
Ltac reads_only :=
  repeat first
    [ apply (keeps_ret same_server) | apply (keeps_raise same_server)
    | apply (keeps_lift same_server) | apply (keeps_gets same_server)
    | apply (keeps_modify same_server); intros ?; reflexivity
    | apply (keeps_method same_server) | apply (keeps_try_except same_server)
    | apply (keeps_bind same_server)
    | match goal with
      | |- forall _, _ => intros ?
      | |- keeps _ (if ?b then _ else _) => destruct b
      | |- keeps _ (match ?x with _ => _ end) => destruct x
      end ].

Section ReadOnly.

Context (E : Env).

Lemma reads_connect : keeps same_server (connect E).
Proof. intros w. unfold connect. by destruct (mongo_connect E). Qed.

Lemma reads_get_collection : keeps same_server (get_collection E).
Proof.
  unfold get_collection. apply (keeps_bind same_server); [reads_only|]. intros c.
  apply (keeps_bind same_server); [|reads_only].
  destruct c; [reads_only|].
  apply (keeps_bind same_server); [apply reads_connect | reads_only].
Qed.

Lemma reads_load_model : keeps same_server (load_model E).
Proof. unfold load_model, emit. reads_only. Qed.

Lemma reads_get_embedding text : keeps same_server (get_embedding E text).
Proof.
  unfold get_embedding. apply (keeps_bind same_server); [reads_only|]. intros m.
  apply (keeps_bind same_server).
  - destruct m; [reads_only|].
    apply (keeps_bind same_server); [apply reads_load_model | reads_only].
  - intros _. unfold encode, emit. reads_only.
Qed.

Lemma reads_vector_search query_embedding limit :
  keeps same_server (vector_search E query_embedding limit).
Proof.
  unfold vector_search. apply (keeps_bind same_server); [apply reads_get_collection|].
  intros c. unfold aggregate, emit. reads_only.
Qed.

Lemma reads_get_movies limit skip : keeps same_server (get_movies E limit skip).
Proof.
  unfold get_movies. apply (keeps_try_except same_server); [|reads_only].
  apply (keeps_bind same_server); [apply reads_get_collection|]. intros c.
  unfold find_skip_limit. reads_only.
Qed.

Lemma reads_get_movie movie_id : keeps same_server (get_movie E movie_id).
Proof.
  unfold get_movie. apply (keeps_try_except same_server); [|reads_only].
  apply (keeps_bind same_server); [apply reads_get_collection|]. intros c.
  unfold find_one. reads_only.
Qed.

Lemma reads_semantic_search request : keeps same_server (semantic_search E request).
Proof.
  unfold semantic_search. apply (keeps_try_except same_server); [|reads_only].
  apply (keeps_bind same_server); [apply reads_get_embedding|]. intros v.
  apply (keeps_bind same_server); [apply reads_vector_search|]. reads_only.
Qed.

Lemma reads_embedding_stats : keeps same_server (embedding_stats E).
Proof.
  unfold embedding_stats. apply (keeps_try_except same_server); [|reads_only].
  apply (keeps_bind same_server); [apply reads_get_collection|]. intros c.
  unfold count_documents, truediv. reads_only.
Qed.

Lemma reads_find_movies query limit : keeps same_server (find_movies E query limit).
Proof.
  unfold find_movies. apply (keeps_bind same_server); [apply reads_get_collection|].
  intros c. unfold find_limit. reads_only.
Qed.

End ReadOnly.

(** X1. The read paths never write: whatever the state of the connection
    and of the model, and whether they return or raise, [get_movies],
    [get_movie], [semantic_search], [embedding_stats], [find_movies] and
    [vector_search] leave the stored collection exactly as it was. *)
Theorem read_paths_leave_store (E : Env) (w : World) :
  (forall limit skip, server (snd (get_movies E limit skip w)) = server w) /\
  (forall movie_id, server (snd (get_movie E movie_id w)) = server w) /\
  (forall request, server (snd (semantic_search E request w)) = server w) /\
  server (snd (embedding_stats E w)) = server w /\
  (forall query limit, server (snd (find_movies E query limit w)) = server w) /\
  (forall v limit, server (snd (vector_search E v limit w)) = server w).
Proof.
  repeat split; intros.
  - apply reads_get_movies.
  - apply reads_get_movie.
  - apply reads_semantic_search.
  - apply reads_embedding_stats.
  - apply reads_find_movies.
  - apply reads_vector_search.
Qed.

Lemma wrapped_raise_is_500 {A} (m : M A) prefix w e w' :
  try_except m (fun e => raise (HTTPException 500 (TextStr prefix e))) w = (Raise e, w') ->
  is_500 e.
Proof.
  unfold try_except, raise. destruct (m w) as [[a|e0] w0]; [done|].
  intros [= <- _]. by eexists.
Qed.

(** X2. Whatever goes wrong inside a route handler reaches the client as
    status 500: no handler lets any other status out, so the 404 that
    [get_movie] raises for a missing movie is unreachable. *)
Theorem handlers_raise_only_500 (E : Env) (w w' : World) (e : exn) :
  (forall limit skip, get_movies E limit skip w = (Raise e, w') -> is_500 e) /\
  (forall movie_id, get_movie E movie_id w = (Raise e, w') -> is_500 e) /\
  (forall request, semantic_search E request w = (Raise e, w') -> is_500 e) /\
  (forall request, generate_embeddings E request w = (Raise e, w') -> is_500 e) /\
  (embedding_stats E w = (Raise e, w') -> is_500 e).
Proof.
  repeat split; intros; eapply wrapped_raise_is_500; eassumption.
Qed.

Lemma handlers_raise_only_500_witness :
  is_500 (HTTPException 500
            (TextStr "Error fetching movie: " (HTTPException 404 (Text "Movie not found")))).
Proof.
  destruct (handlers_raise_only_500 sample_env (world_of [movie_a]) (world_of [movie_a])
              (HTTPException 500
                 (TextStr "Error fetching movie: "
                    (HTTPException 404 (Text "Movie not found")))))
    as (_ & Hget & _).
  apply (Hget "507f1f77bcf86cd799439013"). vm_compute. reflexivity.
Defined.

Section Lookups.

Context (E : Env).

Lemma eq_match_ObjectId fv o :
  eq_match fv (VObjectId o) = true <-> fv = Some (VObjectId o).
Proof.
  unfold eq_match. destruct fv as [v|].
  - destruct v; simpl; rewrite ?orb_false_r;
      (split; [intros H; try discriminate H; apply bool_decide_eq_true in H; congruence
              | intros [= <-]; by apply bool_decide_eq_true]).
  - rewrite bool_decide_eq_true. split; congruence.
Qed.

(** [{"_id": oid}] accepts exactly the documents keyed by [oid]. *)
Lemma matches_by_id o (d : Document) :
  matches (by_id o) d = true <-> d !! "_id" = Some (VObjectId o).
Proof.
  unfold matches, by_id. rewrite bool_decide_eq_true, map_Forall_singleton.
  apply eq_match_ObjectId.
Qed.

Lemma server_find_one_Some q docs d :
  server_find_one q docs = Some d -> matches q d = true /\ In d docs.
Proof.
  unfold server_find_one. intros H. apply find_some in H. tauto.
Qed.

Lemma stringify_id_lookup (d : Document) k :
  stringify_id E d !! k =
    if bool_decide (k = "_id") then (fun v => VStr (py_str E v)) <$> d !! "_id"
    else d !! k.
Proof.
  unfold stringify_id. case_bool_decide as Hk.
  - subst k. destruct (d !! "_id") as [v|] eqn:Hid; simpl.
    + by rewrite lookup_insert_eq.
    + done.
  - destruct (d !! "_id") as [v|] eqn:Hid; [|done].
    by rewrite lookup_insert_ne.
Qed.



(** A selection holds stored documents that match the filter. *)
Lemma server_find_sound q skip limit docs :
  Forall (fun d => In d docs /\ matches q d = true) (server_find q skip limit docs).
Proof.
  unfold server_find, apply_skip_limit.
  assert (Hall : Forall (fun d => In d docs /\ matches q d = true)
                   (List.filter (matches q) docs)).
  { apply List.Forall_forall. intros d Hd. by apply filter_In in Hd. }
  destruct (limit =? 0); [by apply Forall_drop|]. by apply Forall_take, Forall_drop.
Qed.

End Lookups.

(** X3. On a connected store, [get_movie] with the identifier of a stored
    movie returns that movie with every field as stored, except that [_id]
    is replaced by its 24-digit lower-case text. *)
Theorem get_movie_found
    (E : Env) (w : World) (movie_id : string) (oid : ObjectId) (d : Document) :
  collection w = true ->
  ObjectId_of_str movie_id = Ok oid ->
  server_find_one (by_id oid) (server w) = Some d ->
  exists movie,
    get_movie E movie_id w = (Ok movie, w) /\
    movie !! "_id" = Some (VStr (oid_hex oid)) /\
    (forall k, k <> "_id" -> movie !! k = d !! k).
Proof.
  intros Hc Hid Hfound.
  destruct (server_find_one_Some _ _ _ Hfound) as [Hm _].
  apply matches_by_id in Hm.
  exists (<["_id" := VStr (oid_hex oid)]> d). split; [|split].
  - rewrite (get_movie_connected E w movie_id Hc), Hid. simpl. rewrite Hfound.
    unfold not_movie. rewrite bool_decide_eq_false_2.
    + simpl. unfold getitem. by rewrite Hm.
    + intros ->. by rewrite lookup_empty in Hm.
  - apply lookup_insert_eq.
  - intros k Hk. by rewrite lookup_insert_ne.
Qed.

Lemma get_movie_found_witness :
  exists movie,
    get_movie sample_env "507F1F77BCF86CD799439011" (world_of [movie_c; movie_a])
      = (Ok movie, world_of [movie_c; movie_a]) /\
    movie !! "_id" = Some (VStr "507f1f77bcf86cd799439011") /\
    (forall k, k <> "_id" -> movie !! k = movie_a !! k).
Proof.
  apply (get_movie_found sample_env (world_of [movie_c; movie_a])
           "507F1F77BCF86CD799439011" oid_a movie_a); reflexivity.
Defined.





(** *** Updating one vector *)

#[global] Instance same_but_embeddings_preorder : PreOrder same_but_embeddings.
Proof.
  split.
  - intros w. reflexivity.
  - intros a b c Hab Hbc. unfold same_but_embeddings in *. congruence.
Qed.

Lemma same_server_but_embeddings w w' : same_server w w' -> same_but_embeddings w w'.
Proof. unfold same_server, same_but_embeddings. by intros ->. Qed.

Section Update.

Context (E : Env).

Lemma set_embedding_union v (d : Document) :
  ({[ "plot_embedding" := VVector v ]} : Document) ∪ d =
  <["plot_embedding" := VVector v]> d.
Proof. by rewrite insert_union_singleton_l. Qed.

Lemma matches_by_id_set_embedding o v (d : Document) :
  matches (by_id o) ({[ "plot_embedding" := VVector v ]} ∪ d) = matches (by_id o) d.
Proof.
  apply eq_true_iff_eq. rewrite !matches_by_id, set_embedding_union.
  by rewrite lookup_insert_ne.
Qed.

(** The first match is where the update lands. *)
Lemma server_update_one_found q fields docs d :
  server_find_one q docs = Some d ->
  exists l1 l2,
    docs = l1 ++ d :: l2 /\
    Forall (fun x => matches q x = false) l1 /\
    snd (server_update_one q fields docs) = l1 ++ (fields ∪ d) :: l2.
Proof.
  unfold server_find_one.
  induction docs as [|x docs IH]; simpl; [done|].
  destruct (matches q x) eqn:Hm.
  - intros [= ->]. exists [], docs. split; [done|]. split; [constructor|].
    case_bool_decide as Hsame; simpl; [by rewrite Hsame | done].
  - intros Hfind. destruct (IH Hfind) as (l1 & l2 & -> & Hl1 & Hrun).
    exists (x :: l1), l2. split; [done|]. split; [by constructor|].
    destruct (server_update_one q fields (l1 ++ d :: l2)) as [r docs']. simpl in *.
    by rewrite Hrun.
Qed.

Lemma server_find_one_first q l1 d l2 :
  Forall (fun x => matches q x = false) l1 -> matches q d = true ->
  server_find_one q (l1 ++ d :: l2) = Some d.
Proof.
  unfold server_find_one. induction 1 as [|x l1 Hx _ IH]; intros Hd; simpl.
  - by rewrite Hd.
  - rewrite Hx. by apply IH.
Qed.

(** A second identical update finds nothing to change. *)
Lemma server_update_one_twice o v docs :
  let fields : Document := {[ "plot_embedding" := VVector v ]} in
  snd (server_update_one (by_id o) fields (snd (server_update_one (by_id o) fields docs)))
  = snd (server_update_one (by_id o) fields docs).
Proof.
  intros fields. induction docs as [|d docs IH]; simpl; [done|].
  destruct (matches (by_id o) d) eqn:Hm.
  - case_bool_decide as Hsame; simpl.
    + by rewrite Hm, bool_decide_eq_true_2.
    + unfold fields at 1. rewrite matches_by_id_set_embedding, Hm.
      rewrite bool_decide_eq_true_2; [done|].
      unfold fields. by rewrite !set_embedding_union, insert_insert_eq.
  - destruct (server_update_one (by_id o) fields docs) as [r docs'] eqn:Hrun.
    simpl in *. rewrite Hm.
    destruct (server_update_one (by_id o) fields docs') as [r' docs''] eqn:Hrun'.
    simpl in *. by rewrite IH.
Qed.

Lemma persist_one_twice movie_id v docs :
  persist_one movie_id v (snd (persist_one movie_id v docs))
  = (false, snd (persist_one movie_id v docs)).
Proof.
  unfold persist_one. destruct (ObjectId_of_str movie_id) as [o|e]; simpl; [|done].
  rewrite server_update_one_twice.
  by rewrite bool_decide_eq_false_2 by (intros Hn; by apply Hn).
Qed.

Lemma server_update_one_frame q v docs :
  map (delete "plot_embedding")
    (snd (server_update_one q {[ "plot_embedding" := VVector v ]} docs))
  = map (delete "plot_embedding") docs.
Proof.
  induction docs as [|d docs IH]; simpl; [done|].
  destruct (matches q d).
  - case_bool_decide; simpl; [done|].
    by rewrite set_embedding_union, delete_insert_eq.
  - destruct (server_update_one q _ docs) as [r docs']. simpl in *. by rewrite IH.
Qed.

Ltac frame_step :=
  first [ apply (keeps_ret same_but_embeddings) | apply (keeps_raise same_but_embeddings)
        | apply (keeps_lift same_but_embeddings) | apply (keeps_gets same_but_embeddings)
        | apply (keeps_modify same_but_embeddings); intros ?; reflexivity
        | apply (keeps_method same_but_embeddings)
        | apply (keeps_try_except same_but_embeddings)
        | apply (keeps_bind same_but_embeddings)
        | match goal with |- forall _, _ => intros ? end ].

Lemma reads_as_frame {A} (m : M A) : keeps same_server m -> keeps same_but_embeddings m.
Proof. intros H w. apply same_server_but_embeddings, H. Qed.

Lemma frame_update_movie_embedding movie_id embedding :
  keeps same_but_embeddings (update_movie_embedding E movie_id embedding).
Proof.
  unfold update_movie_embedding.
  apply (keeps_bind same_but_embeddings);
    [apply reads_as_frame, reads_get_collection|]. intros c.
  apply (keeps_bind same_but_embeddings).
  - apply (keeps_try_except same_but_embeddings); [|repeat frame_step].
    apply (keeps_bind same_but_embeddings); [|repeat frame_step].
    unfold update_one. apply (keeps_method same_but_embeddings).
    apply (keeps_bind same_but_embeddings); [repeat frame_step|]. intros q.
    intros w. unfold bind, gets.
    pose proof (server_update_one_frame q embedding (server w)) as Hframe.
    destruct (server_update_one q _ (server w)) as [r docs']. simpl in *. exact Hframe.
  - intros ok. unfold emit. repeat frame_step.
Qed.

Lemma frame_persist_loop pairs updated_count :
  keeps same_but_embeddings (persist_loop E pairs updated_count).
Proof.
  revert updated_count. induction pairs as [|[movie_id embedding] pairs IH];
    intros updated_count; simpl.
  - apply (keeps_ret same_but_embeddings).
  - apply (keeps_bind same_but_embeddings);
      [apply frame_update_movie_embedding|]. intros ok. apply IH.
Qed.

Lemma reads_find_skip_limit c q skip limit :
  keeps same_server (find_skip_limit c q skip limit).
Proof. unfold find_skip_limit. reads_only. Qed.

Lemma reads_get_embeddings texts : keeps same_server (get_embeddings E texts).
Proof.
  unfold get_embeddings. apply (keeps_bind same_server); [reads_only|]. intros m.
  apply (keeps_bind same_server).
  - destruct m; [reads_only|].
    apply (keeps_bind same_server); [apply reads_load_model | reads_only].
  - intros _. unfold encode_batch, emit. reads_only.
Qed.

Lemma frame_generate_embeddings request :
  keeps same_but_embeddings (generate_embeddings E request).
Proof.
  unfold generate_embeddings.
  apply (keeps_try_except same_but_embeddings); [|repeat frame_step].
  apply (keeps_bind same_but_embeddings);
    [apply reads_as_frame, reads_get_collection|]. intros c.
  apply (keeps_bind same_but_embeddings);
    [apply reads_as_frame, reads_find_skip_limit|]. intros movies.
  destruct movies as [|movie movies]; [repeat frame_step|].
  apply (keeps_bind same_but_embeddings); [repeat frame_step|]. intros movie_ids.
  apply (keeps_bind same_but_embeddings);
    [apply reads_as_frame, reads_get_embeddings|]. intros embeddings.
  apply (keeps_bind same_but_embeddings); [apply frame_persist_loop | repeat frame_step].
Qed.

End Update.

(** X6. The write paths touch nothing but vectors: whatever the state and
    the outcome, [update_movie_embedding] and a whole [generate_embeddings]
    run leave the collection with the same documents in the same order, every
    field other than [plot_embedding] as it was. *)
Theorem writes_touch_only_embeddings (E : Env) (w : World) :
  (forall movie_id embedding,
      map (delete "plot_embedding")
        (server (snd (update_movie_embedding E movie_id embedding w)))
      = map (delete "plot_embedding") (server w)) /\
  (forall request,
      map (delete "plot_embedding") (server (snd (generate_embeddings E request w)))
      = map (delete "plot_embedding") (server w)).
Proof.
  split; intros.
  - apply frame_update_movie_embedding.
  - apply frame_generate_embeddings.
Qed.

(** X7. On a connected store, once [update_movie_embedding] has been called
    for a stored movie, [get_movie] with the same identifier returns that
    movie carrying the vector just written. *)
Theorem update_then_get_movie
    (E : Env) (w : World) (movie_id : string) (oid : ObjectId) (d : Document)
    (embedding : list float) :
  collection w = true ->
  ObjectId_of_str movie_id = Ok oid ->
  server_find_one (by_id oid) (server w) = Some d ->
  exists b w1 movie,
    update_movie_embedding E movie_id embedding w = (Ok b, w1) /\
    get_movie E movie_id w1 = (Ok movie, w1) /\
    movie !! "plot_embedding" = Some (VVector embedding) /\
    (forall k, k <> "_id" -> k <> "plot_embedding" -> movie !! k = d !! k).
Proof.
  intros Hc Hid Hfound.
  destruct (server_find_one_Some _ _ _ Hfound) as [Hm _].
  destruct (server_update_one_found (by_id oid)
              {[ "plot_embedding" := VVector embedding ]} (server w) d Hfound)
    as (l1 & l2 & Hdocs & Hl1 & Hrun).
  eexists _, _.
  destruct (get_movie_found E
              (add_event (EvPersist movie_id embedding
                            (fst (persist_one movie_id embedding (server w))))
                 (set_server (snd (persist_one movie_id embedding (server w))) w))
              movie_id oid ({[ "plot_embedding" := VVector embedding ]} ∪ d))
    as (movie & Hget & _ & Hfields); [done | done | |].
  { simpl. unfold persist_one. rewrite Hid. simpl. rewrite Hrun.
    apply server_find_one_first; [done|]. by rewrite matches_by_id_set_embedding. }
  exists movie. split; [by apply update_movie_embedding_connected|].
  split; [exact Hget|]. split.
  - rewrite Hfields by done. by rewrite set_embedding_union, lookup_insert_eq.
  - intros k Hk Hk'. rewrite Hfields by done.
    by rewrite set_embedding_union, lookup_insert_ne.
Qed.

Lemma update_then_get_movie_witness :
  exists b w1 movie,
    update_movie_embedding sample_env "507f1f77bcf86cd799439011" sample_vector
      (world_of [movie_c; movie_a]) = (Ok b, w1) /\
    get_movie sample_env "507f1f77bcf86cd799439011" w1 = (Ok movie, w1) /\
    movie !! "plot_embedding" = Some (VVector sample_vector) /\
    (forall k, k <> "_id" -> k <> "plot_embedding" -> movie !! k = movie_a !! k).
Proof.
  apply (update_then_get_movie sample_env (world_of [movie_c; movie_a])
           "507f1f77bcf86cd799439011" oid_a movie_a sample_vector); reflexivity.
Defined.

(** X8. On a connected store [update_movie_embedding] is idempotent: for any
    identifier and vector, a second identical call returns False and leaves
    the store as the first call left it. *)
Theorem update_movie_embedding_twice
    (E : Env) (w : World) (movie_id : string) (embedding : list float) :
  collection w = true ->
  exists b1 w1 w2,
    update_movie_embedding E movie_id embedding w = (Ok b1, w1) /\
    update_movie_embedding E movie_id embedding w1 = (Ok false, w2) /\
    server w2 = server w1.
Proof.
  intros Hc. eexists _, _, _.
  split; [by apply update_movie_embedding_connected|].
  rewrite update_movie_embedding_connected by done.
  cbn [server add_event set_server]. rewrite persist_one_twice. done.
Qed.

Lemma update_movie_embedding_twice_witness :
  exists b1 w1 w2,
    update_movie_embedding sample_env "507f1f77bcf86cd799439011" sample_vector
      (world_of [movie_a]) = (Ok b1, w1) /\
    update_movie_embedding sample_env "507f1f77bcf86cd799439011" sample_vector w1
      = (Ok false, w2) /\
    server w2 = server w1.
Proof.
  apply (update_movie_embedding_twice sample_env (world_of [movie_a])
           "507f1f77bcf86cd799439011" sample_vector). reflexivity.
Defined.

(** X9. On a connected store, an identifier that is not a valid ObjectId
    makes [update_movie_embedding] return False, not raise: the [InvalidId]
    is caught, and the store is not touched. *)
Theorem update_movie_embedding_malformed
    (E : Env) (w : World) (movie_id : string) (embedding : list float) (e : exn) :
  collection w = true ->
  ObjectId_of_str movie_id = Raise e ->
  exists w',
    update_movie_embedding E movie_id embedding w = (Ok false, w') /\
    server w' = server w.
Proof.
  intros Hc Hid. eexists. rewrite update_movie_embedding_connected by done.
  unfold persist_one. rewrite Hid. done.
Qed.

Lemma update_movie_embedding_malformed_witness :
  exists w',
    update_movie_embedding sample_env "tt0111161" sample_vector (world_of [movie_d])
      = (Ok false, w') /\
    server w' = server (world_of [movie_d]).
Proof.
  apply (update_movie_embedding_malformed sample_env (world_of [movie_d])
           "tt0111161" sample_vector (InvalidId "tt0111161")); reflexivity.
Defined.

(** *** The embedder *)

Section Embedder.

Context (E : Env).

Lemma loads_app h1 h2 : loads (h1 ++ h2) = (loads h1 + loads h2)%nat.
Proof. unfold loads. by rewrite List.filter_app, length_app. Qed.

(** After the lazy load, an embedding call adds at most its one [encode]. *)
Lemma get_embedding_world text w :
  snd (get_embedding E text w) = after_lazy_load E w \/
  exists s, snd (get_embedding E text w) = add_event (EvEncode s) (after_lazy_load E w).
Proof.
  rewrite get_embedding_unfold.
  destruct (negb (truthy text) || negb (is_str text)); [by left|].
  unfold try_except, encode, bind, gets, raise, ret.
  destruct (model (after_lazy_load E w)); [|by left].
  destruct text; try by left.
  right. exists s. unfold emit, modify, lift. by destruct (model_encode E s).
Qed.

Lemma get_embeddings_world texts w :
  snd (get_embeddings E texts w) = after_lazy_load E w \/
  snd (get_embeddings E texts w) = add_event (EvEncodeBatch texts) (after_lazy_load E w).
Proof.
  rewrite get_embeddings_unfold.
  destruct texts as [|text texts]; [by left|].
  unfold try_except, encode_batch, bind, gets, raise, ret.
  destruct (model (after_lazy_load E w)); [|by left].
  right. unfold emit, modify, lift. by destruct (model_encode_batch E (text :: texts)).
Qed.

Lemma after_lazy_load_loads w :
  loads (trace (after_lazy_load E w)) =
  (loads (trace w) + if model w then 0 else 1)%nat.
Proof. rewrite after_lazy_load_trace, loads_app. by destruct (model w). Qed.

(** What either embedding call does to the model slot and to the number of
    loads. *)
Lemma embedding_call_effect (w w' : World) :
  (w' = after_lazy_load E w \/ exists ev, ev <> EvLoadModel /\
                                          w' = add_event ev (after_lazy_load E w)) ->
  model w' = model w || transformer_loads E /\
  loads (trace w') = (loads (trace w) + if model w then 0 else 1)%nat.
Proof.
  intros [-> | (ev & Hev & ->)].
  - split; [apply after_lazy_load_model | apply after_lazy_load_loads].
  - cbn [model trace add_event]. split; [apply after_lazy_load_model|].
    rewrite loads_app, after_lazy_load_loads.
    destruct ev; unfold loads; simpl; try lia. done.
Qed.

Lemma get_embedding_effect text w :
  model (snd (get_embedding E text w)) = model w || transformer_loads E /\
  loads (trace (snd (get_embedding E text w)))
  = (loads (trace w) + if model w then 0 else 1)%nat.
Proof.
  apply embedding_call_effect.
  destruct (get_embedding_world text w) as [H | [s H]]; [by left|].
  right. by exists (EvEncode s).
Qed.

Lemma get_embeddings_effect texts w :
  model (snd (get_embeddings E texts w)) = model w || transformer_loads E /\
  loads (trace (snd (get_embeddings E texts w)))
  = (loads (trace w) + if model w then 0 else 1)%nat.
Proof.
  apply embedding_call_effect.
  destruct (get_embeddings_world texts w) as [H | H]; [by left|].
  right. by exists (EvEncodeBatch texts).
Qed.

End Embedder.

(** X10. The model is constructed at most once when it can be constructed:
    with a loadable model, any embedding call leaves the model in place, and
    any embedding call that finds a model in place constructs none. *)
Theorem model_loaded_once (E : Env) (w : World) (text : value) (texts : list value) :
  transformer_loads E = true ->
  model (snd (get_embedding E text w)) = true /\
  model (snd (get_embeddings E texts w)) = true /\
  (model w = true ->
   loads (trace (snd (get_embedding E text w))) = loads (trace w) /\
   loads (trace (snd (get_embeddings E texts w))) = loads (trace w)).
Proof.
  intros Hload.
  destruct (get_embedding_effect E text w) as [Hm1 Hl1].
  destruct (get_embeddings_effect E texts w) as [Hm2 Hl2].
  rewrite Hm1, Hm2, Hl1, Hl2, Hload, orb_true_r.
  split; [done|]. split; [done|]. intros ->. lia.
Qed.

Lemma model_loaded_once_witness :
  let w := mkWorld [] true false [] in
  model (snd (get_embedding sample_env (VStr "robots") w)) = true /\
  model (snd (get_embeddings sample_env [VStr "robots"] w)) = true.
Proof.
  intros w.
  destruct (model_loaded_once sample_env w (VStr "robots") [VStr "robots"] eq_refl)
    as (H1 & H2 & _).
  split; [exact H1 | exact H2].
Defined.

(** X11. A model that cannot be constructed is constructed again on every
    call: with no model in place and a failing constructor, each embedding
    call makes exactly one more attempt and leaves no model behind. *)
Theorem failed_load_is_retried (E : Env) (w : World) (text : value) (texts : list value) :
  transformer_loads E = false ->
  model w = false ->
  (model (snd (get_embedding E text w)) = false /\
   loads (trace (snd (get_embedding E text w))) = S (loads (trace w))) /\
  (model (snd (get_embeddings E texts w)) = false /\
   loads (trace (snd (get_embeddings E texts w))) = S (loads (trace w))).
Proof.
  intros Hload Hm.
  destruct (get_embedding_effect E text w) as [Hm1 Hl1].
  destruct (get_embeddings_effect E texts w) as [Hm2 Hl2].
  rewrite Hm1, Hm2, Hl1, Hl2, Hload, Hm. simpl. split; split; done || lia.
Qed.

Lemma failed_load_is_retried_witness :
  let w := mkWorld [] true false [] in
  loads (trace (snd (get_embedding no_model_env (VStr "robots") w))) = 1%nat /\
  loads (trace (snd (get_embeddings no_model_env [VStr "robots"] w))) = 1%nat.
Proof.
  intros w.
  destruct (failed_load_is_retried no_model_env w (VStr "robots") [VStr "robots"]
              eq_refl eq_refl) as [[_ H1] [_ H2]].
  split; [exact H1 | exact H2].
Defined.

(** X12. When the whole batch fails (the model raises on it, or no model
    could be constructed), [get_embeddings] on a non-empty list returns one
    zero vector per text, each of the configured dimension, and does not
    raise: no partial result survives. *)
Theorem get_embeddings_batch_fallback (E : Env) (w : World) (texts : list value) :
  0 <= VECTOR_DIMENSION (settings E) ->
  texts <> [] ->
  (exists e, model_encode_batch E texts = Raise e) \/
  (model w = false /\ transformer_loads E = false) ->
  exists vectors w',
    get_embeddings E texts w = (Ok vectors, w') /\
    List.length vectors = List.length texts /\
    Forall (fun v => Z.of_nat (List.length v) = VECTOR_DIMENSION (settings E) /\
                     Forall (fun x => x = 0%float) v) vectors.
Proof.
  intros Hdim Hne Hfail.
  exists (repeat (zero_vector E) (List.length texts)).
  cut (exists w', get_embeddings E texts w
                  = (Ok (repeat (zero_vector E) (List.length texts)), w')).
  { intros [w' Hrun]. exists w'. split; [done|]. split; [apply repeat_length|].
    apply List.Forall_forall. intros v Hv. apply repeat_spec in Hv as ->.
    split; [by apply zero_vector_length | apply zero_vector_zeros]. }
  rewrite get_embeddings_unfold. destruct texts as [|text texts]; [done|].
  unfold try_except, encode_batch, bind, gets, raise, ret.
  destruct (model (after_lazy_load E w)) eqn:Hm; [|by eexists].
  destruct Hfail as [[e He] | [Hm0 Hl]].
  - unfold emit, modify, lift. rewrite He. by eexists.
  - rewrite after_lazy_load_model, Hm0, Hl in Hm. done.
Qed.

Lemma get_embeddings_batch_fallback_witness :
  exists vectors w',
    get_embeddings failing_model_env [VStr "a"; VNull] (world_of [])
      = (Ok vectors, w') /\
    List.length vectors = 2%nat /\
    Forall (fun v => Z.of_nat (List.length v) = 3 /\ Forall (fun x => x = 0%float) v)
      vectors.
Proof.
  apply (get_embeddings_batch_fallback failing_model_env (world_of []) [VStr "a"; VNull]).
  - simpl. lia.
  - discriminate.
  - left. exists (ModelError "encode"). reflexivity.
Defined.

(** X13. With a model in place, both embedding calls hand back what the
    model produced, unchanged and unchecked: the vector of a non-empty string
    and the vectors of a non-empty batch are returned as they are, whatever
    their length, after exactly one [encode]. *)
Theorem embeddings_pass_through
    (E : Env) (w : World) (s : string) (v : list float)
    (texts : list value) (vs : list (list float)) :
  model w = true ->
  s <> "" -> model_encode E s = Ok v ->
  texts <> [] -> model_encode_batch E texts = Ok vs ->
  get_embedding E (VStr s) w = (Ok v, add_event (EvEncode s) w) /\
  get_embeddings E texts w = (Ok vs, add_event (EvEncodeBatch texts) w).
Proof.
  intros Hm Hs Hv Hne Hvs. split.
  - rewrite get_embedding_unfold. unfold after_lazy_load. rewrite Hm. simpl.
    rewrite (proj2 (String.eqb_neq s "") Hs). simpl.
    unfold try_except, encode, bind, gets, emit, modify, lift. by rewrite Hm, Hv.
  - rewrite get_embeddings_unfold. unfold after_lazy_load. rewrite Hm.
    destruct texts as [|text texts]; [done|].
    unfold try_except, encode_batch, bind, gets, emit, modify, lift. by rewrite Hm, Hvs.
Qed.

Lemma embeddings_pass_through_witness :
  get_embedding short_vector_env (VStr "robots") (world_of [])
    = (Ok [1%float], add_event (EvEncode "robots") (world_of [])) /\
  get_embeddings short_vector_env [VStr "robots"] (world_of [])
    = (Ok [[1%float]], add_event (EvEncodeBatch [VStr "robots"]) (world_of [])).
Proof.
  apply (embeddings_pass_through short_vector_env (world_of []) "robots" [1%float]
           [VStr "robots"] [[1%float]]); reflexivity || discriminate.
Defined.

(** X14. [get_dimension] is not fail-soft. With a model in place or a
    loadable model it answers the model's own width, whatever
    [VECTOR_DIMENSION] is configured; with no model and a failing constructor
    it raises [AttributeError], unlike the embedding calls. *)
Theorem get_dimension_not_fail_soft (E : Env) (native_dimension : Z) (w : World) :
  (model w = true \/ transformer_loads E = true ->
   fst (get_dimension E native_dimension w) = Ok native_dimension) /\
  (model w = false -> transformer_loads E = false ->
   fst (get_dimension E native_dimension w)
   = Raise (AttributeError "get_sentence_embedding_dimension")).
Proof.
  unfold get_dimension, bind, gets, raise, ret. split.
  - intros Hok. destruct (model w) eqn:Hm; simpl; [by rewrite Hm|].
    destruct Hok as [|Hl]; [done|].
    rewrite load_model_run, Hl. simpl. done.
  - intros Hm Hl. rewrite Hm. rewrite load_model_run, Hl. simpl. by rewrite Hm.
Qed.

Lemma get_dimension_not_fail_soft_witness :
  fst (get_dimension sample_env 384 (mkWorld [] true false [])) = Ok 384 /\
  fst (get_dimension no_model_env 384 (mkWorld [] true false []))
  = Raise (AttributeError "get_sentence_embedding_dimension").
Proof.
  split.
  - apply (get_dimension_not_fail_soft sample_env 384 (mkWorld [] true false [])).
    right. reflexivity.
  - apply (get_dimension_not_fail_soft no_model_env 384 (mkWorld [] true false []));
      reflexivity.
Defined.

(** *** Retrieval *)

Section Rows.

Context (E : Env).

Lemma field_rule_None fields k :
  k ∉ fields.*1 -> field_rule fields k = None.
Proof.
  induction fields as [|[k0 p] fields IH]; simpl; [done|].
  intros Hk. apply not_elem_of_cons in Hk as [Hne Hk].
  rewrite (proj2 (String.eqb_neq k0 k)) by congruence. by apply IH.
Qed.

(** A [$project] stage, key by key. *)
Lemma project_lookup (d : Document) score fields (out : Document) k :
  NoDup (fields.*1) ->
  fold_left (project_field d score) fields out !! k =
    match field_rule fields k with
    | Some Include => match d !! k with Some v => Some v | None => out !! k end
    | Some (Meta name) =>
        if String.eqb name "vectorSearchScore"
        then match score with Some s => Some (VFloat s) | None => out !! k end
        else out !! k
    | None => out !! k
    end.
Proof.
  revert out. induction fields as [|[k0 p] fields IH]; intros out Hnd;
    cbn [fold_left field_rule]; [done|].
  apply NoDup_cons in Hnd as [Hk0 Hnd]. simpl in Hk0. rewrite (IH _ Hnd).
  destruct (String.eqb k0 k) eqn:Hk.
  - apply String.eqb_eq in Hk as ->. rewrite (field_rule_None _ _ Hk0).
    destruct p as [|name]; simpl.
    + destruct (d !! k); [by rewrite lookup_insert_eq | done].
    + destruct (String.eqb name "vectorSearchScore"); [|done].
      destruct score; [by rewrite lookup_insert_eq | done].
  - apply String.eqb_neq in Hk.
    assert (Hout : project_field d score out (k0, p) !! k = out !! k).
    { destruct p as [|name]; simpl.
      - destruct (d !! k0); [by rewrite lookup_insert_ne | done].
      - destruct (String.eqb name "vectorSearchScore"); [|done].
        destruct score; [by rewrite lookup_insert_ne | done]. }
    by rewrite Hout.
Qed.

Lemma projected_fields_NoDup : NoDup (projected_fields.*1).
Proof. apply (bool_decide_unpack _). by vm_compute. Qed.

(** The row handed back for one hit of the index, key by key. *)
Lemma result_of_row_lookup (hit : Document * float) k :
  result_of_row E hit !! k =
    if bool_decide (k = "_id") then (fun v => VStr (py_str E v)) <$> fst hit !! "_id"
    else match field_rule projected_fields k with
         | Some Include => fst hit !! k
         | Some (Meta _) => Some (VFloat (snd hit))
         | None => None
         end.
Proof.
  unfold result_of_row, project. cbn [fst snd]. rewrite stringify_id_lookup.
  rewrite !project_lookup by apply projected_fields_NoDup.
  case_bool_decide as Hk; [subst k; simpl; by destruct (fst hit !! "_id")|].
  rewrite lookup_empty.
  destruct (field_rule projected_fields k) as [[|name]|] eqn:Hrule; [| |done].
  - by destruct (fst hit !! k).
  - assert (name = "vectorSearchScore") as ->; [|done].
    revert Hrule. unfold projected_fields. cbn [field_rule].
    repeat (destruct (String.eqb _ k); [by intros [= <-] || done|]). done.
Qed.

(** [get_embedding] on a text the model errors on. *)
Lemma get_embedding_model_errors w s :
  model_errors_on E w (VStr s) ->
  exists w', get_embedding E (VStr s) w = (Ok (zero_vector E), w').
Proof.
  intros (s' & [= <-] & Herr). rewrite get_embedding_unfold.
  destruct (negb (truthy (VStr s)) || negb (is_str (VStr s))); [by eexists|].
  unfold try_except, encode, bind, gets.
  destruct (model (after_lazy_load E w)) eqn:Hm; [|by eexists].
  destruct Herr as [[e He] | [Hm0 Hl]].
  - unfold emit, modify, lift. rewrite He. by eexists.
  - rewrite after_lazy_load_model, Hm0, Hl in Hm. done.
Qed.

Lemma required_raises {A} (d : Document) k (coerce : value -> option A) e :
  required d k coerce = Raise e -> e = ValidationError k.
Proof.
  unfold required. destruct (d !! k) as [v|]; [|by intros [= <-]].
  destruct (coerce v); [done | by intros [= <-]].
Qed.

Lemma optional_raises {A} (d : Document) k (coerce : value -> option A) e :
  optional d k coerce = Raise e -> e = ValidationError k.
Proof.
  unfold optional. destruct (d !! k) as [v|]; [|done].
  destruct v; try done; destruct (coerce _); done || by intros [= <-].
Qed.

Lemma SearchResult_init_raises kwargs e :
  SearchResult_init E kwargs = Raise e -> exists field, e = ValidationError field.
Proof.
  unfold SearchResult_init, result_bind.
  destruct (required kwargs "_id" _) eqn:H1;
    [|intros [= <-]; apply required_raises in H1; by eexists].
  destruct (required kwargs "title" _) eqn:H2;
    [|intros [= <-]; apply required_raises in H2; by eexists].
  destruct (optional kwargs "plot" _) eqn:H3;
    [|intros [= <-]; apply optional_raises in H3; by eexists].
  destruct (optional kwargs "year" _) eqn:H4;
    [|intros [= <-]; apply optional_raises in H4; by eexists].
  destruct (optional kwargs "genres" _) eqn:H5;
    [|intros [= <-]; apply optional_raises in H5; by eexists].
  destruct (optional kwargs "cast" _) eqn:H6;
    [|intros [= <-]; apply optional_raises in H6; by eexists].
  destruct (required kwargs "score" _) eqn:H7;
    [done|intros [= <-]; apply required_raises in H7; by eexists].
Qed.

Lemma SearchResult_init_no_title (kwargs : Document) :
  kwargs !! "title" = None -> exists field, SearchResult_init E kwargs = Raise (ValidationError field).
Proof.
  intros Ht. unfold SearchResult_init, result_bind.
  destruct (required kwargs "_id" (as_str E)) as [id|e] eqn:Hid.
  - unfold required at 1. rewrite Ht. by eexists.
  - unfold required in Hid. destruct (kwargs !! "_id") as [v|]; [|injection Hid as <-; by eexists].
    destruct (as_str E v); [done|]. injection Hid as <-. by eexists.
Qed.

Lemma traverse_raises {A B} (f : A -> result B) (P : exn -> Prop) xs x :
  In x xs -> (exists e, f x = Raise e) ->
  (forall y e, f y = Raise e -> P e) ->
  exists e, traverse f xs = Raise e /\ P e.
Proof.
  intros Hin Hx HP. induction xs as [|y xs IH]; [done|]. simpl.
  unfold result_bind at 1. destruct (f y) as [b|e] eqn:Hy.
  - destruct Hin as [-> | Hin]; [destruct Hx as [e He]; congruence|].
    destruct (IH Hin) as (e & -> & HPe). simpl. by exists e.
  - exists e. split; [done|]. by apply (HP y).
Qed.

End Rows.

(** X15. On a connected store, every row [vector_search] returns carries
    only the seven projected fields: [_id] as the text of the hit's
    identifier, [score] as the similarity of the hit (a stored field named
    [score] is masked), the five other fields as stored in the
    hit, and nothing else; in particular the stored vector is never sent
    back. Rows keep the order of the index. *)
Theorem vector_search_rows
    (E : Env) (w : World) (query_embedding : list float) (limit : Z)
    (rows : list Document) (w' : World) :
  collection w = true ->
  vector_search E query_embedding limit w = (Ok rows, w') ->
  exists found,
    vector_index E (search_stage E query_embedding limit) (server w) = Ok found /\
    Forall2
      (fun (hit : Document * float) (r : Document) =>
         r !! "_id" = (fun v => VStr (py_str E v)) <$> fst hit !! "_id" /\
         r !! "score" = Some (VFloat (snd hit)) /\
         (forall k, k ∈ ["title"; "plot"; "year"; "genres"; "cast"] ->
                    r !! k = fst hit !! k) /\
         (forall k, k ∉ ["_id"; "title"; "plot"; "year"; "genres"; "cast"; "score"] ->
                    r !! k = None))
      found rows.
Proof.
  intros Hc Hrun. rewrite (vector_search_connected E w query_embedding limit Hc) in Hrun.
  destruct (vector_index E _ (server w)) as [found|e]; [|done].
  injection Hrun as <- _. exists found. split; [done|].
  induction found as [|hit found IH]; simpl; constructor; [|exact IH].
  split; [by rewrite result_of_row_lookup|].
  split; [by rewrite result_of_row_lookup|]. split.
  - intros k Hk. rewrite result_of_row_lookup.
    repeat (apply elem_of_cons in Hk as [-> | Hk]; [done|]).
    by apply elem_of_nil in Hk.
  - intros k Hk. rewrite result_of_row_lookup.
    rewrite bool_decide_eq_false_2 by (intros ->; apply Hk; by left).
    by rewrite field_rule_None.
Qed.

Lemma vector_search_rows_witness :
  exists found,
    vector_index sample_env (search_stage sample_env sample_vector 3)
      (server (world_of [movie_c])) = Ok found /\
    Forall2
      (fun (hit : Document * float) (r : Document) =>
         r !! "_id" = (fun v => VStr (py_str sample_env v)) <$> fst hit !! "_id" /\
         r !! "score" = Some (VFloat (snd hit)) /\
         (forall k, k ∈ ["title"; "plot"; "year"; "genres"; "cast"] ->
                    r !! k = fst hit !! k) /\
         (forall k, k ∉ ["_id"; "title"; "plot"; "year"; "genres"; "cast"; "score"] ->
                    r !! k = None))
      found [result_of_row sample_env (movie_c, 1%float)].
Proof.
  apply (vector_search_rows sample_env (world_of [movie_c]) sample_vector 3
           [result_of_row sample_env (movie_c, 1%float)]
           (add_event (EvAggregate (sent_pipeline sample_env sample_vector 3))
              (world_of [movie_c]))).
  - reflexivity.
  - vm_compute. reflexivity.
Defined.

(** X16. An embedding failure does not stop a search. On a connected store,
    when the model errors on the query, [semantic_search] sends the index
    the all-zero vector of the configured dimension and answers with
    whatever the index returns for it. *)
Theorem semantic_search_degraded
    (E : Env) (w : World) (request : SearchRequest.t) :
  collection w = true ->
  model_errors_on E w (VStr (SearchRequest.query request)) ->
  exists w1,
    semantic_search E request w =
      (match vector_index E
               (search_stage E (zero_vector E) (SearchRequest.limit request)) (server w) with
       | Ok found =>
           match traverse (SearchResult_init E) (map (result_of_row E) found) with
           | Ok search_results =>
               Ok (SearchResponse.mk (SearchRequest.query request) search_results
                     (Z.of_nat (List.length search_results)))
           | Raise e => Raise (HTTPException 500 (TextStr "Search error: " e))
           end
       | Raise e => Raise (HTTPException 500 (TextStr "Search error: " e))
       end,
       add_event
         (EvAggregate (sent_pipeline E (zero_vector E) (SearchRequest.limit request))) w1).
Proof.
  intros Hc Herr.
  destruct (get_embedding_model_errors E w _ Herr) as [w0 Hzero].
  destruct (semantic_search_connected E w request Hc) as (emb & w1 & Hemb & Hrun).
  rewrite Hzero in Hemb. injection Hemb as <- <-. by exists w0.
Qed.

Lemma semantic_search_degraded_witness :
  exists w1,
    semantic_search failing_model_env (SearchRequest.mk "robots" 2) (world_of [movie_c]) =
      (match vector_index failing_model_env
               (search_stage failing_model_env (zero_vector failing_model_env) 2)
               (server (world_of [movie_c])) with
       | Ok found =>
           match traverse (SearchResult_init failing_model_env)
                   (map (result_of_row failing_model_env) found) with
           | Ok search_results =>
               Ok (SearchResponse.mk "robots" search_results
                     (Z.of_nat (List.length search_results)))
           | Raise e => Raise (HTTPException 500 (TextStr "Search error: " e))
           end
       | Raise e => Raise (HTTPException 500 (TextStr "Search error: " e))
       end,
       add_event
         (EvAggregate (sent_pipeline failing_model_env (zero_vector failing_model_env) 2)) w1).
Proof.
  apply (semantic_search_degraded failing_model_env (world_of [movie_c])
           (SearchRequest.mk "robots" 2)).
  - reflexivity.
  - exists "robots". split; [reflexivity|]. left. by exists (ModelError "encode").
Defined.

(** X17. A search is all or nothing. On a connected store, if any hit of
    the index lacks a [title], [semantic_search] returns no results at all:
    it raises a 500 quoting a validation error. *)
Theorem semantic_search_all_or_nothing
    (E : Env) (w : World) (request : SearchRequest.t)
    (emb : list float) (w1 : World) (found : list (Document * float))
    (hit : Document * float) :
  collection w = true ->
  get_embedding E (VStr (SearchRequest.query request)) w = (Ok emb, w1) ->
  vector_index E (search_stage E emb (SearchRequest.limit request)) (server w) = Ok found ->
  In hit found -> fst hit !! "title" = None ->
  exists field w',
    semantic_search E request w =
      (Raise (HTTPException 500 (TextStr "Search error: " (ValidationError field))), w').
Proof.
  intros Hc Hemb Hfound Hin Htitle.
  destruct (semantic_search_connected E w request Hc) as (emb' & w1' & Hemb' & Hrun).
  rewrite Hemb in Hemb'. injection Hemb' as <- <-. rewrite Hfound in Hrun.
  destruct (traverse_raises (SearchResult_init E)
              (fun e => exists field, e = ValidationError field)
              (map (result_of_row E) found) (result_of_row E hit))
    as (e & Htr & field & ->).
  - by apply in_map.
  - destruct (SearchResult_init_no_title E (result_of_row E hit)) as [field Hf].
    + by rewrite result_of_row_lookup.
    + by eexists.
  - intros y e. apply SearchResult_init_raises.
  - rewrite Htr in Hrun. by eexists _, _.
Qed.

Lemma semantic_search_all_or_nothing_witness :
  exists field w',
    semantic_search sample_env (SearchRequest.mk "robots" 5)
      (world_of [movie_c; {[ "_id" := VObjectId oid_b ]}])
    = (Raise (HTTPException 500 (TextStr "Search error: " (ValidationError field))), w').
Proof.
  apply (semantic_search_all_or_nothing sample_env
           (world_of [movie_c; {[ "_id" := VObjectId oid_b ]}])
           (SearchRequest.mk "robots" 5) sample_vector
           (add_event (EvEncode "robots")
              (world_of [movie_c; {[ "_id" := VObjectId oid_b ]}]))
           [(movie_c, 1%float); ({[ "_id" := VObjectId oid_b ]}, 1%float)]
           ({[ "_id" := VObjectId oid_b ]}, 1%float)).
  - reflexivity.
  - vm_compute. reflexivity.
  - vm_compute. reflexivity.
  - right. left. reflexivity.
  - reflexivity.
Defined.

(** *** Backfill over a store keyed by ObjectIds *)

Section Keyed.

Context (E : Env).

Lemma server_find_sublist q skip limit docs :
  server_find q skip limit docs `sublist_of` docs.
Proof.
  unfold server_find, apply_skip_limit.
  assert (Hf : List.filter (matches q) docs `sublist_of` docs).
  { induction docs as [|d docs IH]; simpl; [constructor|].
    destruct (matches q d); by constructor. }
  destruct (limit =? 0).
  - etransitivity; [apply sublist_drop | exact Hf].
  - etransitivity; [apply sublist_take|].
    etransitivity; [apply sublist_drop | exact Hf].
Qed.

Lemma sublist_fmap {A B} (f : A -> B) (l1 l2 : list A) :
  l1 `sublist_of` l2 -> (f <$> l1) `sublist_of` (f <$> l2).
Proof. induction 1; simpl; by constructor. Qed.

Lemma NoDup_fmap_eq {A B} (f : A -> B) (l : list A) x y :
  NoDup (f <$> l) -> In x l -> In y l -> f x = f y -> x = y.
Proof.
  induction l as [|a l IH]; simpl; [done|].
  intros Hnd Hx Hy Heq. apply NoDup_cons in Hnd as [Ha Hnd].
  destruct Hx as [-> | Hx], Hy as [-> | Hy]; [done| | |by apply IH].
  - exfalso. apply Ha. rewrite Heq. apply list_elem_of_fmap. exists y.
    split; [done|]. by apply list_elem_of_In.
  - exfalso. apply Ha. rewrite <- Heq. apply list_elem_of_fmap. exists x.
    split; [done|]. by apply list_elem_of_In.
Qed.

(** With unique keys, the document found by its key is the document. *)
Lemma server_find_one_keyed docs (m : Document) o :
  NoDup ((fun d : Document => d !! "_id") <$> docs) ->
  In m docs -> m !! "_id" = Some (VObjectId o) ->
  server_find_one (by_id o) docs = Some m.
Proof.
  intros Hnd Hin Hid.
  destruct (server_find_one (by_id o) docs) as [d|] eqn:Hfind.
  - destruct (server_find_one_Some _ _ _ Hfind) as [Hm Hd].
    apply matches_by_id in Hm. f_equal.
    apply (NoDup_fmap_eq (fun d : Document => d !! "_id") docs); congruence.
  - exfalso. unfold server_find_one in Hfind.
    apply (find_none _ _ Hfind) in Hin. apply matches_by_id in Hid. congruence.
Qed.

(** One step of the loop on a selected movie that has no vector yet. *)
Lemma persist_one_keyed docs (m : Document) o v :
  NoDup ((fun d : Document => d !! "_id") <$> docs) ->
  In m docs -> m !! "_id" = Some (VObjectId o) -> canonical o ->
  m !! "plot_embedding" = None ->
  exists l1 l2,
    docs = l1 ++ m :: l2 /\
    persist_one (py_str E (default VNull (m !! "_id"))) v docs
    = (true, l1 ++ <["plot_embedding" := VVector v]> m :: l2).
Proof.
  intros Hnd Hin Hid Hcan Hnone.
  pose proof (server_find_one_keyed docs m o Hnd Hin Hid) as Hfind.
  destruct (server_update_one_found (by_id o) {[ "plot_embedding" := VVector v ]}
              docs m Hfind) as (l1 & l2 & Hdocs & _ & Hrun).
  exists l1, l2. split; [done|].
  unfold persist_one. rewrite Hid. simpl. rewrite Hcan. simpl.
  rewrite Hrun, set_embedding_union. f_equal.
  apply bool_decide_eq_true_2. rewrite Hdocs. intros Heq.
  apply app_inv_head in Heq. injection Heq as Heq.
  apply (f_equal (fun d : Document => d !! "plot_embedding")) in Heq.
  rewrite lookup_insert_eq, Hnone in Heq. done.
Qed.

Lemma unembedded_app l1 l2 : unembedded (l1 ++ l2) = unembedded l1 + unembedded l2.
Proof. unfold unembedded. rewrite List.filter_app, length_app. lia. Qed.

Lemma unembedded_cons d docs :
  unembedded (d :: docs) = (if lacks_embedding d then 1 else 0) + unembedded docs.
Proof. unfold unembedded. simpl. destruct (lacks_embedding d); simpl; lia. Qed.

(** The loop over a selection of distinct, stored movies without vectors:
    every step succeeds, every movie ends up stored with its vector, and
    the documents of other keys stay where they are. *)
Lemma persist_all_keyed movies : forall embeddings docs,
  List.length embeddings = List.length movies ->
  NoDup ((fun d : Document => d !! "_id") <$> docs) ->
  NoDup ((fun d : Document => d !! "_id") <$> movies) ->
  Forall (fun m : Document =>
            In m docs /\ m !! "plot_embedding" = None /\
            exists o, m !! "_id" = Some (VObjectId o) /\ canonical o) movies ->
  let run := persist_all (zip (ids_of E movies) embeddings) docs in
  successes (fst run) = Z.of_nat (List.length movies) /\
  unembedded (snd run) = unembedded docs - Z.of_nat (List.length movies) /\
  Forall2 (fun (m : Document) v => In (<["plot_embedding" := VVector v]> m) (snd run))
    movies embeddings /\
  NoDup ((fun d : Document => d !! "_id") <$> snd run) /\
  (forall d : Document,
      In d docs -> (forall m : Document, In m movies -> d !! "_id" <> m !! "_id") ->
      In d (snd run)).
Proof.
  induction movies as [|m movies IH]; intros embeddings docs Hlen Hnd Hndm Hall run.
  - destruct embeddings; [|done]. subst run. simpl.
    split; [done|]. split; [lia|]. split; [constructor|]. split; done.
  - destruct embeddings as [|v embeddings]; [done|]. injection Hlen as Hlen.
    apply Forall_cons in Hall as [(Hin & Hnone & o & Hid & Hcan) Hall].
    apply NoDup_cons in Hndm as [Hm_fresh Hndm].
    destruct (persist_one_keyed docs m o v Hnd Hin Hid Hcan Hnone)
      as (l1 & l2 & Hdocs & Hstep).
    set (m' := <["plot_embedding" := VVector v]> m) in *.
    set (docs1 := l1 ++ m' :: l2) in *.
    assert (Hid' : m' !! "_id" = m !! "_id") by (unfold m'; by rewrite lookup_insert_ne).
    assert (Hother : forall d : Document,
               In d docs -> d !! "_id" <> m !! "_id" -> In d docs1).
    { intros d Hd Hne. rewrite Hdocs in Hd. apply in_app_iff in Hd as [Hd | [<- | Hd]].
      - apply in_app_iff. by left.
      - done.
      - apply in_app_iff. right. by right. }
    assert (Hnd1 : NoDup ((fun d : Document => d !! "_id") <$> docs1)).
    { unfold docs1. rewrite fmap_app, fmap_cons, Hid'.
      by rewrite Hdocs, fmap_app, fmap_cons in Hnd. }
    assert (Hall1 : Forall (fun x : Document =>
                              In x docs1 /\ x !! "plot_embedding" = None /\
                              exists o, x !! "_id" = Some (VObjectId o) /\ canonical o)
                      movies).
    { apply List.Forall_forall. intros x Hx.
      rewrite List.Forall_forall in Hall. destruct (Hall x Hx) as (Hxd & Hxn & Hxo).
      split; [|done]. apply Hother; [done|]. intros Heq. apply Hm_fresh.
      rewrite <- Heq. apply list_elem_of_fmap. exists x. split; [done|].
      by apply list_elem_of_In. }
    destruct (IH embeddings docs1 Hlen Hnd1 Hndm Hall1)
      as (Hsucc & Hun & Hstored & Hnd' & Hkeep).
    subst run. cbn [ids_of map zip_with persist_all].
    change (map (fun movie : Document => py_str E (default VNull (movie !! "_id"))) movies)
      with (ids_of E movies).
    rewrite Hstep. fold docs1.
    destruct (persist_all (zip (ids_of E movies) embeddings) docs1) as [oks docs2].
    cbn [fst snd] in *. split; [|split; [|split; [|split]]].
    + rewrite successes_cons, Hsucc. cbn [List.length]. lia.
    + rewrite Hun. unfold docs1. rewrite Hdocs, !unembedded_app, !unembedded_cons.
      unfold m', lacks_embedding. rewrite lookup_insert_eq, Hnone.
      rewrite bool_decide_eq_true_2 by eauto.
      rewrite bool_decide_eq_false_2 by (by intros [? ?]).
      cbn [List.length negb]. lia.
    + constructor; [|done]. apply Hkeep.
      * unfold docs1. apply in_app_iff. right. by left.
      * intros x Hx Heq. apply Hm_fresh. fold m' in Heq. rewrite Hid' in Heq.
        rewrite Heq. apply list_elem_of_fmap. exists x. split; [done|]. by apply list_elem_of_In.
    + done.
    + intros d Hd Hne. apply Hkeep.
      * apply Hother; [done|]. apply Hne. by left.
      * intros x Hx. apply Hne. by right.
Qed.

(** What a selection over a keyed store is made of. *)
Lemma selection_keyed skip limit docs :
  keyed_by_ObjectId docs ->
  let movies := server_find backfill_query skip limit docs in
  NoDup ((fun d : Document => d !! "_id") <$> movies) /\
  Forall (fun m : Document =>
            In m docs /\ m !! "plot_embedding" = None /\
            exists o, m !! "_id" = Some (VObjectId o) /\ canonical o) movies /\
  Forall (fun d : Document => is_Some (d !! "_id")) movies.
Proof.
  intros [Hkeys Hnd] movies. split; [|split].
  - eapply sublist_NoDup; [exact Hnd|]. apply sublist_fmap, server_find_sublist.
  - pose proof (server_find_sound backfill_query skip limit docs) as Hsound.
    apply List.Forall_forall. intros m Hm.
    rewrite List.Forall_forall in Hsound. destruct (Hsound m Hm) as [Hin Hmatch].
    apply matches_backfill_query in Hmatch as (_ & _ & Hnone).
    rewrite List.Forall_forall in Hkeys. by destruct (Hkeys m Hin) as (o & ? & ?); eauto.
  - apply server_find_Forall. eapply Forall_impl; [exact Hkeys|].
    intros d (o & -> & _). by eexists.
Qed.

End Keyed.

Section BackfillRuns.

Context (E : Env).

(** A backfill whose selection is empty. *)
Lemma generate_embeddings_nothing_selected request s l w :
  collection w = true ->
  EmbeddingGenerationRequest.skip request = Some s -> 0 <= s ->
  EmbeddingGenerationRequest.limit request = Some l ->
  server_find backfill_query s l (server w) = [] ->
  generate_embeddings E request w =
    (Ok (EmbeddingGenerationResponse.mk true 0 "No movies found without embeddings"), w).
Proof.
  intros Hc Hskip Hs Hlimit Hsel. unfold generate_embeddings, try_except.
  unfold bind at 1. rewrite (get_collection_connected E w Hc).
  unfold bind at 1. unfold find_skip_limit, method. rewrite Hskip, Hlimit.
  unfold bind at 1. destruct (s <? 0) eqn:Hneg; [lia|]. unfold ret at 1.
  unfold bind at 1. unfold ret at 1. unfold bind at 1, gets. unfold ret at 1.
  by rewrite Hsel.
Qed.


End BackfillRuns.

Section BackfillKeyed.

Context (E : Env).

(** A backfill over a connected store keyed by distinct ObjectIds, with one
    vector per selected movie. *)
Lemma generate_embeddings_keyed request s l w embeddings w1 :
  collection w = true ->
  EmbeddingGenerationRequest.skip request = Some s -> 0 <= s ->
  EmbeddingGenerationRequest.limit request = Some l ->
  keyed_by_ObjectId (server w) ->
  get_embeddings E (plots_of (server_find backfill_query s l (server w))) w
  = (Ok embeddings, w1) ->
  List.length embeddings = List.length (server_find backfill_query s l (server w)) ->
  exists response w',
    generate_embeddings E request w = (Ok response, w') /\
    EmbeddingGenerationResponse.success response = true /\
    EmbeddingGenerationResponse.processed response
    = Z.of_nat (List.length (server_find backfill_query s l (server w))) /\
    unembedded (server w')
    = unembedded (server w)
      - Z.of_nat (List.length (server_find backfill_query s l (server w))) /\
    Forall2 (fun (m : Document) v => In (<["plot_embedding" := VVector v]> m) (server w'))
      (server_find backfill_query s l (server w)) embeddings.
Proof.
  intros Hc Hskip Hs Hlimit Hkeyed Hemb Hlen.
  destruct (selection_keyed s l (server w) Hkeyed) as (Hndm & Hall & Hids).
  cbv zeta in *.
  destruct (get_embeddings_returns E
              (plots_of (server_find backfill_query s l (server w))) w)
    as (e0 & w0 & Hemb0 & Hs1 & Hc1).
  rewrite Hemb in Hemb0. injection Hemb0 as <- <-.
  remember (server_find backfill_query s l (server w)) as movies eqn:Hmovies.
  assert (Hcases : movies = [] \/ movies <> []) by (destruct movies; [by left | by right]).
  destruct Hcases as [Hnil | Hne].
  - subst movies. rewrite Hnil in *. destruct embeddings; [|done]. eexists _, _.
    split; [by apply (generate_embeddings_nothing_selected E request s l)|].
    simpl. split; [done|]. split; [done|]. split; [lia | constructor].
  - pose proof (generate_embeddings_connected E request s l w embeddings w1
                  Hc Hskip Hs Hlimit) as Hrun. cbv zeta in Hrun.
    rewrite <- Hmovies in Hrun.
    specialize (Hrun Hne Hids Hemb Hs1 ltac:(congruence)).
    destruct Hkeyed as [_ Hnd].
    destruct (persist_all_keyed E movies embeddings (server w) Hlen Hnd Hndm Hall)
      as (Hsucc & Hun & Hstored & _ & _).
    eexists _, _. split; [exact Hrun|].
    cbn [EmbeddingGenerationResponse.success EmbeddingGenerationResponse.processed server].
    done.
Qed.

End BackfillKeyed.


Lemma sample_store_keyed : keyed_by_ObjectId [movie_a; movie_c; movie_e].
Proof.
  split.
  - repeat constructor; eexists; (split; [reflexivity | by vm_compute]).
  - apply (bool_decide_unpack _). by vm_compute.
Qed.


(** X19. Fail-soft embedding reaches the store. Over a connected store keyed
    by distinct ObjectIds, when the model fails on the batch, the backfill
    still reports every selected movie as processed, and stores each of them
    with the all-zero vector. *)
Theorem backfill_stores_zero_vectors
    (E : Env) (w : World) (request : EmbeddingGenerationRequest.t) (s l : Z) :
  collection w = true ->
  EmbeddingGenerationRequest.skip request = Some s -> 0 <= s ->
  EmbeddingGenerationRequest.limit request = Some l ->
  keyed_by_ObjectId (server w) ->
  let movies := server_find backfill_query s l (server w) in
  movies <> [] ->
  (exists e, model_encode_batch E (plots_of movies) = Raise e) \/
  (model w = false /\ transformer_loads E = false) ->
  exists response w',
    generate_embeddings E request w = (Ok response, w') /\
    EmbeddingGenerationResponse.success response = true /\
    EmbeddingGenerationResponse.processed response = Z.of_nat (List.length movies) /\
    Forall (fun m : Document =>
              In (<["plot_embedding" := VVector (zero_vector E)]> m) (server w')) movies.
Proof.
  intros Hc Hskip Hs Hlimit Hkeyed movies Hne Hfail.
  assert (Hplots : plots_of movies <> []).
  { unfold plots_of. destruct movies; [done | discriminate]. }
  assert (Hemb : exists w1,
             get_embeddings E (plots_of movies) w
             = (Ok (repeat (zero_vector E) (List.length movies)), w1)).
  { rewrite get_embeddings_unfold.
    replace (List.length movies) with (List.length (plots_of movies))
      by (unfold plots_of; apply length_map).
    destruct (plots_of movies) as [|text texts] eqn:Hp; [done|].
    unfold try_except, encode_batch, bind, gets, raise, ret.
    destruct (model (after_lazy_load E w)) eqn:Hm; [|by eexists].
    destruct Hfail as [[e He] | [Hm0 Hl]].
    - unfold emit, modify, lift. rewrite He. by eexists.
    - rewrite after_lazy_load_model, Hm0, Hl in Hm. done. }
  destruct Hemb as [w1 Hemb].
  destruct (generate_embeddings_keyed E request s l w _ w1
              Hc Hskip Hs Hlimit Hkeyed Hemb (repeat_length _ _))
    as (response & w' & Hrun & Hsuccess & Hprocessed & _ & Hstored).
  exists response, w'. split; [done|]. split; [done|]. split; [done|].
  fold movies in Hstored. clear -Hstored.
  remember (List.length movies) as n eqn:Hn. clear Hn.
  revert n Hstored. induction movies as [|m movies IH]; intros n Hstored; [constructor|].
  destruct n as [|n]; inversion Hstored; subst. constructor; [done|]. by apply (IH n).
Qed.

Lemma backfill_stores_zero_vectors_witness :
  exists response w',
    generate_embeddings failing_model_env (EmbeddingGenerationRequest.mk (Some 100) (Some 0))
      (world_of [movie_a; movie_c; movie_e]) = (Ok response, w') /\
    EmbeddingGenerationResponse.success response = true /\
    EmbeddingGenerationResponse.processed response
    = Z.of_nat (List.length (server_find backfill_query 0 100 [movie_a; movie_c; movie_e])) /\
    Forall (fun m : Document =>
              In (<["plot_embedding" := VVector (zero_vector failing_model_env)]> m)
                (server w'))
      (server_find backfill_query 0 100 [movie_a; movie_c; movie_e]).
Proof.
  apply (backfill_stores_zero_vectors failing_model_env
           (world_of [movie_a; movie_c; movie_e])
           (EmbeddingGenerationRequest.mk (Some 100) (Some 0)) 0 100).
  - reflexivity.
  - reflexivity.
  - lia.
  - reflexivity.
  - exact sample_store_keyed.
  - assert (Hsel : server_find backfill_query 0 100
                     (server (world_of [movie_a; movie_c; movie_e])) = [movie_a; movie_e])
      by (vm_compute; reflexivity).
    rewrite Hsel. discriminate.
  - left. exists (ModelError "encode"). reflexivity.
Defined.



(** X21. The request model lets an explicit null through for [limit] and
    for [skip] (both are [Optional[int]]), and the handler does not replace
    it: on a connected store a backfill with a null window ends in a 500
    quoting the cursor's [TypeError], before any document is read. *)
Theorem backfill_null_window
    (E : Env) (w : World) (request : EmbeddingGenerationRequest.t) :
  collection w = true ->
  EmbeddingGenerationRequest.limit request = None \/
  EmbeddingGenerationRequest.skip request = None ->
  EmbeddingGenerationRequest.valid request ->
  exists msg,
    generate_embeddings E request w =
      (Raise (HTTPException 500
                (TextStr "Error generating embeddings: " (TypeError msg))), w).
Proof.
  intros Hc Hnull [Hl Hs]. unfold generate_embeddings, try_except.
  unfold bind at 1. rewrite (get_collection_connected E w Hc).
  unfold bind at 1. unfold find_skip_limit, method.
  destruct (EmbeddingGenerationRequest.skip request) as [s|] eqn:Hskip.
  - destruct Hnull as [Hlimit | ?]; [|done]. rewrite Hlimit.
    unfold bind, raise, ret. destruct (s <? 0) eqn:Hneg; [lia|]. by eexists.
  - unfold bind, raise. by eexists.
Qed.

Lemma backfill_null_window_witness :
  exists msg,
    generate_embeddings sample_env (EmbeddingGenerationRequest.mk None (Some 0))
      (world_of [movie_a]) =
      (Raise (HTTPException 500
                (TextStr "Error generating embeddings: " (TypeError msg))),
       world_of [movie_a]).
Proof.
  apply (backfill_null_window sample_env (world_of [movie_a])
           (EmbeddingGenerationRequest.mk None (Some 0))).
  - reflexivity.
  - left. reflexivity.
  - split; simpl; [exact I | lia].
Defined.

Section StatsCounts.

Lemma matches_has_embedding (d : Document) :
  matches has_embedding_query d = negb (lacks_embedding d).
Proof.
  unfold lacks_embedding. rewrite negb_involutive. apply eq_true_iff_eq.
  unfold matches, has_embedding_query, eval_cond.
  rewrite bool_decide_eq_true, map_Forall_singleton, bool_decide_eq_true.
  rewrite map_Forall_insert by apply lookup_empty. rewrite eval_op_exists. simpl.
  rewrite bool_decide_eq_true. split.
  - intros [H _]. by destruct (bool_decide (is_Some (d !! "plot_embedding"))) eqn:Hb;
      [apply bool_decide_eq_true in Hb|].
  - intros H. split; [by rewrite bool_decide_eq_true_2 | apply map_Forall_empty].
Qed.

Lemma count_with_and_without docs :
  server_count has_embedding_query docs + unembedded docs = Z.of_nat (List.length docs).
Proof.
  unfold server_count, unembedded.
  induction docs as [|d docs IH]; simpl; [done|].
  rewrite matches_has_embedding. destruct (lacks_embedding d); simpl; lia.
Qed.

End StatsCounts.

(** X22. On a connected store the three counts of [embedding_stats] are
    consistent: [without_embeddings] is the number of documents that lack a
    vector, [with_embeddings] the number of the others, neither is negative,
    and they add up to [total_movies]. *)
Theorem embedding_stats_counts (E : Env) (w : World) :
  collection w = true ->
  exists st,
    embedding_stats E w = (Ok st, w) /\
    Stats.without_embeddings st = unembedded (server w) /\
    Stats.with_embeddings st + Stats.without_embeddings st = Stats.total_movies st /\
    0 <= Stats.with_embeddings st /\ 0 <= Stats.without_embeddings st.
Proof.
  intros Hc. eexists. split; [by apply embedding_stats_connected|].
  cbn [Stats.without_embeddings Stats.with_embeddings Stats.total_movies].
  pose proof (count_with_and_without (server w)) as Hsum.
  unfold has_embedding_query in Hsum. rewrite server_count_all.
  unfold server_count, unembedded in *. repeat split; lia.
Qed.

Lemma embedding_stats_counts_witness :
  exists st,
    embedding_stats sample_env (world_of [movie_a; movie_c]) = (Ok st, world_of [movie_a; movie_c]) /\
    Stats.without_embeddings st = unembedded [movie_a; movie_c] /\
    Stats.with_embeddings st + Stats.without_embeddings st = Stats.total_movies st /\
    0 <= Stats.with_embeddings st /\ 0 <= Stats.without_embeddings st.
Proof.
  apply (embedding_stats_counts sample_env (world_of [movie_a; movie_c])). reflexivity.
Defined.

(** *** Start-up and health *)

(** X23. [health_check] never raises and always says "healthy". Its
    database field says "connected" whenever [get_collection] does not
    raise, and so also when the connection attempt failed with
    ConnectionFailure and there is still no collection; it says
    "disconnected" only when opening the connection raises something else. *)
Theorem health_check_reports (E : Env) (APP_VERSION : string) (w : World) :
  exists h w',
    health_check E APP_VERSION w = (Ok h, w') /\
    Health.status h = "healthy" /\
    (collection w = true -> Health.database h = Text "connected") /\
    (collection w = false -> mongo_connect E = ConnectionFailure ->
     Health.database h = Text "connected" /\ collection w' = false) /\
    (forall e, collection w = false -> mongo_connect E = ConnectRaises e ->
               Health.database h = TextStr "disconnected: " e).
Proof.
  unfold health_check, try_except. unfold bind at 1 2.
  rewrite (get_collection_run E w).
  destruct (collection w) eqn:Hc.
  - eexists _, _. split; [reflexivity|]. repeat split; done.
  - destruct (mongo_connect E) as [| |e] eqn:Hconn.
    + eexists _, _. split; [reflexivity|]. repeat split; done.
    + eexists _, _. split; [reflexivity|]. repeat split; done.
    + eexists _, _. split; [reflexivity|]. repeat split; try done.
      by intros e' _ [= <-].
Qed.

Lemma health_check_reports_witness :
  exists h w',
    health_check unreachable_env "1.0.0" (mkWorld [movie_a] false false []) = (Ok h, w') /\
    Health.database h = Text "connected" /\ collection w' = false.
Proof.
  destruct (health_check_reports unreachable_env "1.0.0" (mkWorld [movie_a] false false []))
    as (h & w' & Hrun & _ & _ & Hfail & _).
  exists h, w'. split; [exact Hrun|]. apply Hfail; reflexivity.
Defined.

(** X24. A start-up whose connection attempt fails with ConnectionFailure
    still completes, and loads the model. The service then runs without a
    collection: [health_check] reports "connected", while [get_movies]
    answers every request with a 500 quoting the missing [find]. *)
Theorem startup_without_store
    (E : Env) (APP_VERSION : string) (w : World) (limit skip : Z) :
  collection w = false ->
  mongo_connect E = ConnectionFailure ->
  exists w1 h,
    startup_event E w = (Ok tt, w1) /\
    collection w1 = false /\
    model w1 = model w || transformer_loads E /\
    health_check E APP_VERSION w1 = (Ok h, w1) /\
    Health.database h = Text "connected" /\
    get_movies E limit skip w1 =
      (Raise (HTTPException 500
                (TextStr "Error fetching movies: " (AttributeError "find"))), w1).
Proof.
  intros Hc Hconn.
  set (w1 := (if transformer_loads E then set_model true else fun w => w)
               (add_event EvLoadModel w)).
  assert (Hc1 : collection w1 = false).
  { unfold w1. by destruct (transformer_loads E). }
  exists w1. eexists. split; [|split; [|split; [|split; [|split]]]].
  - unfold startup_event, bind, connect. rewrite Hconn, load_model_run. reflexivity.
  - exact Hc1.
  - unfold w1. destruct (transformer_loads E); simpl; by rewrite ?orb_true_r, ?orb_false_r.
  - unfold health_check, try_except. unfold bind at 1 2.
    rewrite (get_collection_run E w1), Hc1, Hconn. reflexivity.
  - reflexivity.
  - unfold get_movies, try_except. unfold bind at 1.
    rewrite (get_collection_run E w1), Hc1, Hconn. reflexivity.
Qed.

Lemma startup_without_store_witness :
  exists w1 h,
    startup_event unreachable_env (mkWorld [movie_a] false false []) = (Ok tt, w1) /\
    collection w1 = false /\
    model w1 = false || transformer_loads unreachable_env /\
    health_check unreachable_env "1.0.0" w1 = (Ok h, w1) /\
    Health.database h = Text "connected" /\
    get_movies unreachable_env 10 0 w1 =
      (Raise (HTTPException 500
                (TextStr "Error fetching movies: " (AttributeError "find"))), w1).
Proof.
  apply (startup_without_store unreachable_env "1.0.0" (mkWorld [movie_a] false false [])
           10 0); reflexivity.
Defined.

Section Processed.

Context (E : Env).

(** A backfill that returns had an integer window, and counted no more than
    it selected. *)
Lemma generate_embeddings_processed_selected request w response w' :
  generate_embeddings E request w = (Ok response, w') ->
  exists s l,
    EmbeddingGenerationRequest.skip request = Some s /\
    EmbeddingGenerationRequest.limit request = Some l /\ 0 <= s /\
    0 <= EmbeddingGenerationResponse.processed response
      <= Z.of_nat (List.length (server_find backfill_query s l (server w))).
Proof.
  unfold generate_embeddings, try_except. intros H.
  match type of H with
  | context [match ?body with _ => _ end] => destruct body as [[r0|e] w0] eqn:Hb
  end; [|done].
  injection H as -> ->.
  apply bind_inv in Hb as [(c & w0 & Hgc & Hb) | (e & _ & ?)]; [|done].
  apply get_collection_server in Hgc.
  apply bind_inv in Hb as [(movies & w1 & Hfind & Hb) | (e & _ & ?)]; [|done].
  apply find_skip_limit_ok in Hfind as (-> & s & l & Hskip & Hlimit & Hs & Hmovies).
  exists s, l. split; [done|]. split; [done|]. split; [done|].
  rewrite <- Hgc, <- Hmovies.
  destruct movies as [|movie movies].
  { injection Hb as <- _. simpl. lia. }
  apply bind_inv in Hb as [(ids & w2 & Hids & Hb) | (e & _ & ?)]; [|done].
  unfold lift in Hids.
  destruct (traverse _ (movie :: movies)) as [ids'|] eqn:Htr; [|done].
  injection Hids as -> ->. apply traverse_length in Htr.
  apply bind_inv in Hb as [(embs & w3 & _ & Hb) | (e & _ & ?)]; [|done].
  apply bind_inv in Hb as [(n & w4 & Hloop & Hb) | (e & _ & ?)]; [|done].
  injection Hb as <- _. cbn [EmbeddingGenerationResponse.processed].
  apply persist_loop_bound in Hloop. rewrite length_zip in Hloop. lia.
Qed.

End Processed.

(** X25. The processed count of a backfill never exceeds the requested
    limit: whenever a backfill with a limit within the model's bounds
    returns, its count lies between 0 and that limit. *)
Theorem backfill_processed_within_limit
    (E : Env) (w : World) (request : EmbeddingGenerationRequest.t) (l : Z)
    (response : EmbeddingGenerationResponse.t) (w' : World) :
  EmbeddingGenerationRequest.valid request ->
  EmbeddingGenerationRequest.limit request = Some l ->
  generate_embeddings E request w = (Ok response, w') ->
  0 <= EmbeddingGenerationResponse.processed response <= l.
Proof.
  intros [Hvalid _] Hlimit Hrun. rewrite Hlimit in Hvalid.
  destruct (generate_embeddings_processed_selected E request w response w' Hrun)
    as (s & l' & _ & Hlimit' & _ & Hle).
  rewrite Hlimit in Hlimit'. injection Hlimit' as <-.
  assert (Hlen : Z.of_nat (List.length (server_find backfill_query s l (server w))) <= l).
  { unfold server_find, apply_skip_limit. destruct (l =? 0) eqn:Hz; [lia|].
    rewrite length_take. lia. }
  lia.
Qed.

Lemma backfill_processed_within_limit_witness :
  0 <= EmbeddingGenerationResponse.processed
         (EmbeddingGenerationResponse.mk true 1
            "Successfully generated embeddings for 1 movies") <= 1.
Proof.
  apply (backfill_processed_within_limit sample_env (world_of [movie_a; movie_e])
           (EmbeddingGenerationRequest.mk (Some 1) (Some 0)) 1
           (EmbeddingGenerationResponse.mk true 1
              "Successfully generated embeddings for 1 movies")
           (mkWorld [<["plot_embedding" := VVector sample_vector]> movie_a; movie_e]
              true true
              [EvEncodeBatch [VStr "robots in space"];
               EvPersist "507f1f77bcf86cd799439011" sample_vector true])).
  - split; simpl; lia.
  - reflexivity.
  - vm_compute. reflexivity.
Defined.
